(** * wallet_system: the wallet ledger handlers, embedded in Rocq

    The development follows [internal/api] (the wallet and auth handlers),
    [internal/utils] (the Redis cache helpers) and [internal/domain] (the
    GORM models) of the repository.

    Modelling conventions.
    - A MySQL table is the list of its rows in primary-key order; every
      table carries its AUTO_INCREMENT counter.
    - Redis is a finite map from key strings to the values the handlers
      marshal into it.  The 60 s time-to-live of an entry is not modelled:
      expiry only removes entries, so a cache hit of the model is a hit of
      the program within those 60 s and a read from the store after them.
      The wallet routes always find the [redisClient] that [main] puts
      into the context.
    - Amounts and balances ([float64] in the source) are integers; the
      handlers only add, subtract and compare them.  Integer arithmetic is
      the arithmetic of [float64] as long as the magnitudes stay within
      2^53 ([float64_exact]); the general statements about sums and
      differences of balances carry that bound.
    - A refused INSERT leaves the AUTO_INCREMENT counter where it was
      (InnoDB may skip a value there); the statements about refused
      registrations and wallet creations speak of the rows only.
    - What MySQL and bcrypt decide and the source does not (the collation
      of [username = ?], the order of rows that tie under
      [ORDER BY created_at desc], the password hash) is a parameter, the
      class [Env].  An [Env] arranges tied rows in one way; a statement
      that spans several queries and must hold however each of them
      arranges its ties quantifies over [Env] for each.
    - Infrastructure failures of MySQL and Redis (lost connections) are
      not modelled: a statement fails only for the reasons the schema
      gives it (no row, a violated key). *)

From Stdlib Require Import ZArith NArith Ascii String Sorted Permutation Lia.
From stdpp Require Import base numbers option list gmap strings pretty.

Local Open Scope Z_scope.

(** ** internal/domain: the GORM models *)

Module User.
Record t := mk {
  ID : N;
  Username : string;
  Password : string;
  Role : string
}.
End User.

Module Wallet.
Record t := mk {
  ID : N;
  UserID : N;
  Balance : Z
}.

(** The zero value of the Go struct. *)
Definition zero : t := mk 0 0 0.

Definition with_balance (w : t) (b : Z) : t := mk (ID w) (UserID w) b.
End Wallet.

Module Transaction.
Record t := mk {
  ID : N;
  FromWalletID : option N;
  ToWalletID : option N;
  Amount : Z;
  Type_ : string;
  CreatedAt : Z
}.
End Transaction.

(** ** The external collaborators the source leaves open *)

(** [collate a b] is MySQL's [a = b] on the [username] column,
    [order_created_at_desc] is what [ORDER BY created_at desc] yields: some
    arrangement of the rows with non-increasing [created_at].  [bcrypt]
    stands for [bcrypt.GenerateFromPassword]. *)
Class Env := {
  collate : string -> string -> bool;
  bcrypt : string -> string;
  order_created_at_desc : list Transaction.t -> list Transaction.t;
  order_created_at_desc_perm :
    forall l, Permutation l (order_created_at_desc l);
  order_created_at_desc_sorted :
    forall l,
      StronglySorted
        (fun a b => Transaction.CreatedAt b <= Transaction.CreatedAt a)
        (order_created_at_desc l)
}.

(** ** strconv *)

Definition max_int : Z := 2 ^ 63 - 1.
Definition min_int : Z := - 2 ^ 63.

(** Go's [int] arithmetic wraps around at 64 bits. *)
Definition wrap_int (z : Z) : Z := (z + 2 ^ 63) mod 2 ^ 64 - 2 ^ 63.

(** [strconv.Itoa]: the decimal numeral, with a leading [-] below zero. *)
Definition Itoa (z : Z) : string := pretty z.

Definition is_digit (c : ascii) : bool :=
  let n := N_of_ascii c in ((48 <=? n) && (n <=? 57))%N.

Definition digit_value (c : ascii) : Z := Z.of_N (N_of_ascii c) - 48.

Fixpoint parse_digits (s : string) (acc : Z) : option Z :=
  match s with
  | EmptyString => Some acc
  | String c r =>
      if is_digit c then parse_digits r (10 * acc + digit_value c) else None
  end.

(** [strconv.Atoi]: an optional sign and at least one decimal digit; a
    value outside [int] is an error. *)
Definition Atoi (s : string) : option Z :=
  match s with
  | EmptyString => None
  | String c r =>
      let neg := Ascii.eqb c "-" in
      let body := if Ascii.eqb c "-" || Ascii.eqb c "+" then r else s in
      match body with
      | EmptyString => None
      | _ =>
          match parse_digits body 0 with
          | None => None
          | Some n =>
              let v := if neg then - n else n in
              if (min_int <=? v) && (v <=? max_int) then Some v else None
          end
      end
  end.

(** ** strings and regexp, as the auth handlers use them *)

Definition is_upper (c : ascii) : bool :=
  let n := N_of_ascii c in ((65 <=? n) && (n <=? 90))%N.

Definition is_lower (c : ascii) : bool :=
  let n := N_of_ascii c in ((97 <=? n) && (n <=? 122))%N.

Definition lower_ascii (c : ascii) : ascii :=
  if is_upper c then ascii_of_N (N_of_ascii c + 32) else c.

(** [strings.ToLower] on the ASCII strings that reach it. *)
Fixpoint ToLower (s : string) : string :=
  match s with
  | EmptyString => EmptyString
  | String c r => String (lower_ascii c) (ToLower r)
  end.

Fixpoint all_alpha (s : string) : bool :=
  match s with
  | EmptyString => true
  | String c r => (is_upper c || is_lower c) && all_alpha r
  end.

(** [regexp.MatchString(`^[A-Za-z]+$`, username)] *)
Definition isValidUsername (username : string) : bool :=
  match username with
  | EmptyString => false
  | _ => all_alpha username
  end.

Definition isValidPassword (password : string) : bool :=
  let n := String.length password in ((8 <=? n) && (n <=? 15))%nat.

(** ** The ledger store (MySQL through GORM) *)

Record DB := mkDB {
  users : list User.t;
  wallets : list Wallet.t;
  transactions : list Transaction.t;
  users_seq : N;
  wallets_seq : N;
  transactions_seq : N
}.

Definition empty_db : DB := mkDB [] [] [] 1 1 1.

Section store.
Context `{Env}.

(** [db.Where("username = ?", name).First(&user)] *)
Definition first_user_by_username (d : DB) (name : string) : option User.t :=
  List.find (fun u => collate (User.Username u) name) (users d).

(** [db.Where("user_id = ?", uid).First(&wallet)] *)
Definition first_wallet_by_user (d : DB) (uid : N) : option Wallet.t :=
  List.find (fun w => N.eqb (Wallet.UserID w) uid) (wallets d).

(** [tx.Model(&wallet).Update("balance", gorm.Expr("balance + ?", delta))]:
    [UPDATE wallets SET balance = balance + delta WHERE id = wid]. *)
Definition update_balance (wid : N) (delta : Z) (d : DB) : DB :=
  mkDB (users d)
       (List.map
          (fun w =>
             if N.eqb (Wallet.ID w) wid
             then Wallet.with_balance w (Wallet.Balance w + delta)
             else w)
          (wallets d))
       (transactions d) (users_seq d) (wallets_seq d) (transactions_seq d).

(** [tx.Create(&t)] on a transaction: the row gets the next identifier and
    the clock reading [now] (autoCreateTime:milli). *)
Definition create_transaction (now : Z) (from to : option N) (amount : Z)
    (kind : string) (d : DB) : DB :=
  mkDB (users d) (wallets d)
       (transactions d ++
          [Transaction.mk (transactions_seq d) from to amount kind now])
       (users_seq d) (wallets_seq d) (N.succ (transactions_seq d)).

(** [db.Create(&user)]: refused when the unique index on [username] has the
    name already. *)
Definition create_user (username password : string) (d : DB) : option DB :=
  if List.existsb (fun u => collate (User.Username u) username) (users d)
  then None
  else Some (mkDB (users d ++ [User.mk (users_seq d) username password "user"])
                  (wallets d) (transactions d)
                  (N.succ (users_seq d)) (wallets_seq d) (transactions_seq d)).

(** [db.Create(&wallet)]: refused when the unique index on [user_id] has the
    user already, or when the user row the foreign key points to is
    missing. *)
Definition create_wallet (uid : N) (d : DB) : option (Wallet.t * DB) :=
  if List.existsb (fun w => N.eqb (Wallet.UserID w) uid) (wallets d)
     || negb (List.existsb (fun u => N.eqb (User.ID u) uid) (users d))
  then None
  else
    let w := Wallet.mk (wallets_seq d) uid 0 in
    Some (w, mkDB (users d) (wallets d ++ [w]) (transactions d)
                  (users_seq d) (N.succ (wallets_seq d)) (transactions_seq d)).

(** [from_wallet_id = ? OR to_wallet_id = ?]; a NULL column matches
    nothing. *)
Definition involves (wid : N) (t : Transaction.t) : bool :=
  match Transaction.FromWalletID t with
  | Some f => N.eqb f wid
  | None => false
  end
  || match Transaction.ToWalletID t with
     | Some g => N.eqb g wid
     | None => false
     end.

(** The body of the transaction in [TransferHandler]. *)
Definition transfer_tx (now : Z) (fromWallet toWallet : Wallet.t)
    (amount : Z) (d : DB) : DB :=
  create_transaction now
    (Some (Wallet.ID fromWallet)) (Some (Wallet.ID toWallet)) amount "transfer"
    (update_balance (Wallet.ID toWallet) amount
       (update_balance (Wallet.ID fromWallet) (- amount) d)).

(** The body of the transaction in [DepositHandler]. *)
Definition deposit_tx (now : Z) (wallet : Wallet.t) (amount : Z) (d : DB) : DB :=
  create_transaction now None (Some (Wallet.ID wallet)) amount "deposit"
    (update_balance (Wallet.ID wallet) amount d).
End store.

(** ** Responses and cached values *)

Record HistoryPage := mkPage {
  hp_transactions : list Transaction.t;
  hp_page : Z;
  hp_page_size : Z;
  hp_total : Z;
  hp_total_pages : Z
}.

(** The zero value of the anonymous [cached] struct. *)
Definition zero_page : HistoryPage := mkPage [] 0 0 0 0.

(** The [gin.H] bodies the handlers send. *)
Inductive Body :=
| error (msg : string)
| message (msg : string)
| wallet_created (wallet : Wallet.t)
| wallet_info (wallet : Wallet.t) (cached : bool)
| history (h : HistoryPage) (cached : bool).

Record Response := JSON { status : Z; body : Body }.

Definition StatusOK : Z := 200.
Definition StatusCreated : Z := 201.
Definition StatusBadRequest : Z := 400.
Definition StatusUnauthorized : Z := 401.
Definition StatusNotFound : Z := 404.
Definition StatusInternalServerError : Z := 500.

(** What [SetCache] marshals: a wallet, or a history response. *)
Inductive CacheVal :=
| cv_wallet (w : Wallet.t)
| cv_history (h : HistoryPage).

(** ** internal/utils: the cache helpers *)

(** [GetCache] with a [*domain.Wallet] destination.  A history object has
    none of the wallet's fields, so unmarshalling it leaves the zero
    wallet. *)
Definition GetCache_wallet (rdb : gmap string CacheVal) (key : string)
    : option Wallet.t :=
  match rdb !! key with
  | None => None
  | Some (cv_wallet w) => Some w
  | Some (cv_history _) => Some Wallet.zero
  end.

(** [GetCache] with the [cached] struct of the history handler as
    destination. *)
Definition GetCache_history (rdb : gmap string CacheVal) (key : string)
    : option HistoryPage :=
  match rdb !! key with
  | None => None
  | Some (cv_history h) => Some h
  | Some (cv_wallet _) => Some zero_page
  end.

Definition SetCache (key : string) (value : CacheVal)
    (rdb : gmap string CacheVal) : gmap string CacheVal :=
  <[key := value]> rdb.

Definition DeleteCache (key : string) (rdb : gmap string CacheVal)
    : gmap string CacheVal :=
  delete key rdb.

(** ** The state the handlers share *)

Record State := mkState {
  db : DB;
  rdb : gmap string CacheVal
}.

Definition empty_state : State := mkState empty_db ∅.

(** [strconv.Itoa(int(userID.(uint)))] *)
Definition uid_string (uid : N) : string := Itoa (wrap_int (Z.of_N uid)).

Definition wallet_key (uid : N) : string := "wallet:user:" +:+ uid_string uid.

Definition txhistory_prefix (uid : N) : string :=
  "txhistory:user:" +:+ uid_string uid.

Definition txhistory_key (uid : N) (page pageSize : Z) : string :=
  txhistory_prefix uid +:+ ":page:" +:+ Itoa page +:+ ":size:" +:+ Itoa pageSize.

(** ** internal/api: the wallet handlers *)

Record TransferRequest := mkTransferRequest {
  ToUsername : string;
  Amount : Z
}.

Record DepositRequest := mkDepositRequest {
  DepositAmount : Z
}.

Record RegisterRequest := mkRegisterRequest {
  RegUsername : string;
  RegPassword : string
}.

(** [c.ShouldBindJSON(&req)] succeeds when the [binding] tags hold:
    [required] on a string is non-empty, [required,gt=0] on the amount is
    strictly positive. *)
Definition bind_transfer (req : TransferRequest) : bool :=
  negb (String.eqb (ToUsername req) "") && (0 <? Amount req).

Definition bind_deposit (req : DepositRequest) : bool :=
  0 <? DepositAmount req.

Definition bind_register (req : RegisterRequest) : bool :=
  negb (String.eqb (RegUsername req) "")
  && negb (String.eqb (RegPassword req) "").

(** The five pages of the default size that the mutating handlers delete:
    [for i := 1; i <= 5; i++]. *)
Definition invalidated_pages : list Z := [1; 2; 3; 4; 5].

Definition default_size_key (prefix : string) (i : Z) : string :=
  prefix +:+ ":page:" +:+ Itoa i +:+ ":size:20".

Section handlers.
Context `{Env}.

(** The cache invalidation at the end of [TransferHandler]. *)
Definition transfer_invalidate (fromUserID toUserID : N)
    (c : gmap string CacheVal) : gmap string CacheVal :=
  let fromKey := wallet_key fromUserID in
  let toKey := wallet_key toUserID in
  let fromTxPrefix := txhistory_prefix fromUserID in
  let toTxPrefix := txhistory_prefix toUserID in
  List.fold_left
    (fun c i =>
       DeleteCache (default_size_key toTxPrefix i)
         (DeleteCache (default_size_key fromTxPrefix i) c))
    invalidated_pages
    (DeleteCache toKey (DeleteCache fromKey c)).

Definition TransferHandler (now : Z) (ctxUserID : option N)
    (req : TransferRequest) (s : State) : Response * State :=
  match ctxUserID with
  | None => (JSON StatusUnauthorized (error "Unauthorized"), s)
  | Some fromUserID =>
    if negb (bind_transfer req) || (Amount req <=? 0)
    then (JSON StatusBadRequest (error "Invalid request"), s)
    else
    match first_user_by_username (db s) (ToUsername req) with
    | None => (JSON StatusNotFound (error "Target user not found"), s)
    | Some toUser =>
      if N.eqb (User.ID toUser) fromUserID
      then (JSON StatusBadRequest (error "Cannot transfer to yourself"), s)
      else
      match first_wallet_by_user (db s) fromUserID with
      | None => (JSON StatusNotFound (error "Sender wallet not found"), s)
      | Some fromWallet =>
        match first_wallet_by_user (db s) (User.ID toUser) with
        | None => (JSON StatusNotFound (error "Recipient wallet not found"), s)
        | Some toWallet =>
          if Wallet.Balance fromWallet <? Amount req
          then (JSON StatusBadRequest (error "Insufficient funds"), s)
          else
            let d := transfer_tx now fromWallet toWallet (Amount req) (db s) in
            let c := transfer_invalidate fromUserID (User.ID toUser) (rdb s) in
            (JSON StatusOK (message "Transfer successful"), mkState d c)
        end
      end
    end
  end.

(** The cache invalidation at the end of [DepositHandler]. *)
Definition deposit_invalidate (userID : N) (c : gmap string CacheVal)
    : gmap string CacheVal :=
  let userKey := wallet_key userID in
  let txKeyPrefix := txhistory_prefix userID in
  List.fold_left
    (fun c i => DeleteCache (default_size_key txKeyPrefix i) c)
    invalidated_pages
    (DeleteCache userKey c).

Definition DepositHandler (now : Z) (ctxUserID : option N)
    (req : DepositRequest) (s : State) : Response * State :=
  match ctxUserID with
  | None => (JSON StatusUnauthorized (error "Unauthorized"), s)
  | Some userID =>
    if negb (bind_deposit req) || (DepositAmount req <=? 0)
    then (JSON StatusBadRequest (error "Invalid amount"), s)
    else
    match first_wallet_by_user (db s) userID with
    | None => (JSON StatusNotFound (error "Wallet not found"), s)
    | Some wallet =>
      let d := deposit_tx now wallet (DepositAmount req) (db s) in
      let c := deposit_invalidate userID (rdb s) in
      (JSON StatusOK (message "Deposit successful"), mkState d c)
    end
  end.

Definition CreateWalletHandler (ctxUserID : option N) (s : State)
    : Response * State :=
  match ctxUserID with
  | None => (JSON StatusUnauthorized (error "Unauthorized"), s)
  | Some userID =>
    match first_wallet_by_user (db s) userID with
    | Some _ => (JSON StatusBadRequest (error "Wallet already exists"), s)
    | None =>
      match create_wallet userID (db s) with
      | None =>
          (JSON StatusInternalServerError (error "Failed to create wallet"), s)
      | Some (wallet, d) =>
          (JSON StatusCreated (wallet_created wallet),
           mkState d (DeleteCache (wallet_key userID) (rdb s)))
      end
    end
  end.

Definition GetWalletHandler (ctxUserID : option N) (s : State)
    : Response * State :=
  match ctxUserID with
  | None => (JSON StatusUnauthorized (error "Unauthorized"), s)
  | Some userID =>
    let cacheKey := wallet_key userID in
    match GetCache_wallet (rdb s) cacheKey with
    | Some wallet => (JSON StatusOK (wallet_info wallet true), s)
    | None =>
      match first_wallet_by_user (db s) userID with
      | None => (JSON StatusNotFound (error "Wallet not found"), s)
      | Some wallet =>
          (JSON StatusOK (wallet_info wallet false),
           mkState (db s) (SetCache cacheKey (cv_wallet wallet) (rdb s)))
      end
    end
  end.

(** [page] of the query string: the default 1 unless it parses to a
    positive [int]. *)
Definition query_page (p : string) : Z :=
  if String.eqb p "" then 1
  else match Atoi p with
       | Some v => if 0 <? v then v else 1
       | None => 1
       end.

(** [page_size] of the query string: the default 20 unless it parses to
    an [int] with [v > 0 && v <= 100]. *)
Definition query_page_size (ps : string) : Z :=
  if String.eqb ps "" then 20
  else match Atoi ps with
       | Some v => if (0 <? v) && (v <=? 100) then v else 20
       | None => 20
       end.

(** The two queries of the history handler on a cache miss: the count, and
    the page ([Offset] is dropped by GORM unless positive). *)
Definition count_transactions (d : DB) (wid : N) : Z :=
  Z.of_nat (List.length (List.filter (involves wid) (transactions d))).

Definition find_transactions (d : DB) (wid : N) (offset pageSize : Z)
    : list Transaction.t :=
  firstn (Z.to_nat pageSize)
    (skipn (Z.to_nat offset)
       (order_created_at_desc (List.filter (involves wid) (transactions d)))).

Definition GetTransactionHistoryHandler (ctxUserID : option N)
    (p ps : string) (s : State) : Response * State :=
  match ctxUserID with
  | None => (JSON StatusUnauthorized (error "Unauthorized"), s)
  | Some userID =>
    match first_wallet_by_user (db s) userID with
    | None => (JSON StatusNotFound (error "Wallet not found"), s)
    | Some wallet =>
      let page := query_page p in
      let pageSize := query_page_size ps in
      let offset := wrap_int ((page - 1) * pageSize) in
      let cacheKey := txhistory_key userID page pageSize in
      match GetCache_history (rdb s) cacheKey with
      | Some cached => (JSON StatusOK (history cached true), s)
      | None =>
        let total := count_transactions (db s) (Wallet.ID wallet) in
        let transactions :=
          find_transactions (db s) (Wallet.ID wallet) offset pageSize in
        let totalPages := Z.quot (wrap_int (total + pageSize - 1)) pageSize in
        let resp := mkPage transactions page pageSize total totalPages in
        (JSON StatusOK (history resp false),
         mkState (db s) (SetCache cacheKey (cv_history resp) (rdb s)))
      end
    end
  end.

(** ** internal/api: registration *)

Definition RegisterHandler (req : RegisterRequest) (s : State)
    : Response * State :=
  if negb (bind_register req)
  then (JSON StatusBadRequest (error "Invalid request"), s)
  else if negb (isValidUsername (RegUsername req))
  then (JSON StatusBadRequest (error "Username must be alphabetic only"), s)
  else if negb (isValidPassword (RegPassword req))
  then (JSON StatusBadRequest (error "Password must be 8-15 characters"), s)
  else
    match create_user (ToLower (RegUsername req)) (bcrypt (RegPassword req))
            (db s) with
    | None => (JSON StatusBadRequest (error "Username already exists"), s)
    | Some d =>
        (JSON StatusCreated (message "User registered successfully"),
         mkState d (rdb s))
    end.

(** ** Sequential executions *)

(** A request as the router dispatches it; [now] is the clock reading of
    the store when the request is served. *)
Inductive Request :=
| Register (req : RegisterRequest)
| CreateWallet (ctxUserID : option N)
| Deposit (now : Z) (ctxUserID : option N) (req : DepositRequest)
| Transfer (now : Z) (ctxUserID : option N) (req : TransferRequest)
| GetWallet (ctxUserID : option N)
| GetTransactionHistory (ctxUserID : option N) (page page_size : string).

Definition handle (r : Request) (s : State) : Response * State :=
  match r with
  | Register req => RegisterHandler req s
  | CreateWallet u => CreateWalletHandler u s
  | Deposit now u req => DepositHandler now u req s
  | Transfer now u req => TransferHandler now u req s
  | GetWallet u => GetWalletHandler u s
  | GetTransactionHistory u p ps => GetTransactionHistoryHandler u p ps s
  end.

(** Serve the requests one after the other; the responses come out in the
    order of the requests. *)
Fixpoint run (rs : list Request) (s : State) : list Response * State :=
  match rs with
  | [] => ([], s)
  | r :: rs' =>
      let '(resp, s1) := handle r s in
      let '(resps, s2) := run rs' s1 in
      (resp :: resps, s2)
  end.
End handlers.

(** ** Stores to run the handlers on *)

(** Rows sorted by insertion on [created_at] descending; [tie] ranks the
    rows that share a [created_at] (the lower rank first).  Every choice of
    [tie] is an order [ORDER BY created_at desc] may return. *)
Module MySQL.
Definition created_desc (a b : Transaction.t) : Prop :=
  Transaction.CreatedAt b <= Transaction.CreatedAt a.

Section ordering.
Variable tie : N -> N.

Definition before (a b : Transaction.t) : bool :=
  (Transaction.CreatedAt b <? Transaction.CreatedAt a)
  || ((Transaction.CreatedAt a =? Transaction.CreatedAt b)
      && (tie (Transaction.ID a) <=? tie (Transaction.ID b))%N).

Fixpoint insert_row (a : Transaction.t) (l : list Transaction.t)
    : list Transaction.t :=
  match l with
  | [] => [a]
  | b :: r => if before a b then a :: l else b :: insert_row a r
  end.

Fixpoint sort_rows (l : list Transaction.t) : list Transaction.t :=
  match l with
  | [] => []
  | a :: r => insert_row a (sort_rows r)
  end.

Lemma before_true a b : before a b = true -> created_desc a b.
Proof. unfold before, created_desc. lia. Qed.

Lemma before_false a b : before a b = false -> created_desc b a.
Proof. unfold before, created_desc. lia. Qed.

Lemma insert_row_perm a l : Permutation (a :: l) (insert_row a l).
Proof.
  induction l as [|b r IH]; simpl; [reflexivity|].
  destruct (before a b); [reflexivity|].
  rewrite perm_swap. now apply perm_skip.
Qed.

Lemma sort_rows_perm l : Permutation l (sort_rows l).
Proof.
  induction l as [|a r IH]; simpl; [constructor|].
  rewrite <- insert_row_perm. now apply perm_skip.
Qed.

Lemma insert_row_sorted a l :
  StronglySorted created_desc l -> StronglySorted created_desc (insert_row a l).
Proof.
  induction 1 as [|b r Hr IH Hb]; simpl.
  - repeat constructor.
  - destruct (before a b) eqn:E.
    + apply before_true in E. constructor; [now constructor|].
      constructor; [exact E|].
      eapply Forall_impl; [exact Hb|]. unfold created_desc in *.
      intros c Hc. simpl in Hc. lia.
    + apply before_false in E. constructor; [exact IH|].
      rewrite <- insert_row_perm. now constructor.
Qed.

Lemma sort_rows_sorted l : StronglySorted created_desc (sort_rows l).
Proof.
  induction l as [|a r IH]; simpl; [constructor|].
  now apply insert_row_sorted.
Qed.
End ordering.

(** A stand-in for the password hash. *)
Definition salted (password : string) : string := "$2a$10$" +:+ password.

(** A store with the given collation of [username] and the given ranking
    of tied rows. *)
Definition env (collation : string -> string -> bool) (tie : N -> N) : Env :=
  {| collate := collation;
     bcrypt := salted;
     order_created_at_desc := sort_rows tie;
     order_created_at_desc_perm := sort_rows_perm tie;
     order_created_at_desc_sorted := sort_rows_sorted tie |}.

(** The binary ([_bin]) collation: names are equal when they are the same
    bytes. *)
Definition binary : string -> string -> bool := String.eqb.


(** Tied rows in primary-key order. *)
Definition by_id : N -> N := fun i => i.
End MySQL.


(** ** Invariants of the store *)

(** The primary key of [wallets]: identifiers are unique and below the
    AUTO_INCREMENT counter. *)
Definition primary_key (d : DB) : Prop :=
  List.NoDup (List.map Wallet.ID (wallets d))
  /\ List.Forall (fun w => (Wallet.ID w < wallets_seq d)%N) (wallets d).

Definition balances_nonneg (d : DB) : Prop :=
  List.Forall (fun w => 0 <= Wallet.Balance w) (wallets d).

(** What [update_balance] does to one row. *)
Definition bump (wid : N) (delta : Z) (w : Wallet.t) : Wallet.t :=
  if N.eqb (Wallet.ID w) wid
  then Wallet.with_balance w (Wallet.Balance w + delta)
  else w.

Section store_facts.
Context `{Env}.

Lemma find_map_preserving {A : Type} (p : A -> bool) (g : A -> A) (l : list A) :
  (forall x, p (g x) = p x) ->
  List.find p (List.map g l) = option_map g (List.find p l).
Proof.
  intros Hp. induction l as [|x l IH]; simpl; [reflexivity|].
  rewrite Hp. destruct (p x); [reflexivity | exact IH].
Qed.

Lemma wallets_update_balance wid delta d :
  wallets (update_balance wid delta d) = List.map (bump wid delta) (wallets d).
Proof. reflexivity. Qed.

Lemma bump_ID wid delta w : Wallet.ID (bump wid delta w) = Wallet.ID w.
Proof. unfold bump. now destruct (N.eqb _ _). Qed.

Lemma bump_UserID wid delta w : Wallet.UserID (bump wid delta w) = Wallet.UserID w.
Proof. unfold bump. now destruct (N.eqb _ _). Qed.

Lemma bump_same w delta :
  bump (Wallet.ID w) delta w = Wallet.with_balance w (Wallet.Balance w + delta).
Proof. unfold bump. now rewrite N.eqb_refl. Qed.

Lemma bump_other wid delta w : Wallet.ID w <> wid -> bump wid delta w = w.
Proof. unfold bump. intros Hne. apply N.eqb_neq in Hne. now rewrite Hne. Qed.

Lemma first_wallet_update_balance wid delta d uid :
  first_wallet_by_user (update_balance wid delta d) uid
  = option_map (bump wid delta) (first_wallet_by_user d uid).
Proof.
  unfold first_wallet_by_user. rewrite wallets_update_balance.
  apply find_map_preserving. intros w. now rewrite bump_UserID.
Qed.

Lemma first_wallet_create_transaction now from to amount kind d uid :
  first_wallet_by_user (create_transaction now from to amount kind d) uid
  = first_wallet_by_user d uid.
Proof. reflexivity. Qed.

Lemma first_wallet_In d uid w :
  first_wallet_by_user d uid = Some w ->
  In w (wallets d) /\ Wallet.UserID w = uid.
Proof.
  unfold first_wallet_by_user. intros Hf. apply List.find_some in Hf.
  destruct Hf as [Hin Heq]. split; [exact Hin | now apply N.eqb_eq].
Qed.

Lemma unique_ID (ws : list Wallet.t) (a b : Wallet.t) :
  List.NoDup (List.map Wallet.ID ws) ->
  In a ws -> In b ws -> Wallet.ID a = Wallet.ID b -> a = b.
Proof.
  induction ws as [|w ws IH]; simpl; [tauto|].
  intros Hnd Ha Hb Hid. apply List.NoDup_cons_iff in Hnd. destruct Hnd as [Hw Hnd].
  destruct Ha as [-> | Ha], Hb as [-> | Hb]; try reflexivity.
  - exfalso. apply Hw. rewrite Hid. now apply List.in_map.
  - exfalso. apply Hw. rewrite <- Hid. now apply List.in_map.
  - now apply IH.
Qed.

Lemma primary_key_update_balance wid delta d :
  primary_key d -> primary_key (update_balance wid delta d).
Proof.
  intros [Hnd Hlt]. split.
  - rewrite wallets_update_balance, List.map_map.
    erewrite List.map_ext; [exact Hnd|]. intros w. apply bump_ID.
  - rewrite wallets_update_balance. apply List.Forall_forall.
    intros w Hw. apply List.in_map_iff in Hw. destruct Hw as [w0 [<- Hw0]].
    rewrite bump_ID. simpl.
    rewrite List.Forall_forall in Hlt. now apply Hlt.
Qed.

Lemma primary_key_create_transaction now from to amount kind d :
  primary_key d -> primary_key (create_transaction now from to amount kind d).
Proof. intros Hpk. exact Hpk. Qed.

Lemma primary_key_create_user username password d d' :
  create_user username password d = Some d' -> primary_key d -> primary_key d'.
Proof.
  unfold create_user. destruct (List.existsb _ _); [discriminate|].
  intros [= <-] Hpk. exact Hpk.
Qed.

Lemma primary_key_create_wallet uid d w d' :
  create_wallet uid d = Some (w, d') -> primary_key d -> primary_key d'.
Proof.
  unfold create_wallet. destruct (_ || _); [discriminate|].
  intros [= <- <-] [Hnd Hlt]. rewrite List.Forall_forall in Hlt.
  split; simpl.
  - rewrite List.map_app. simpl. apply List.NoDup_app.
    + exact Hnd.
    + constructor; [intros [] | constructor].
    + intros i Hi [Hi' | []].
      apply List.in_map_iff in Hi. destruct Hi as [w0 [Hid Hw0]].
      apply Hlt in Hw0. lia.
  - apply List.Forall_forall. intros w Hw. apply List.in_app_iff in Hw.
    destruct Hw as [Hw | [<- | []]].
    + apply Hlt in Hw. lia.
    + simpl. lia.
Qed.

Lemma balances_nonneg_update_balance wid delta d :
  balances_nonneg d ->
  (forall w, In w (wallets d) -> Wallet.ID w = wid ->
             0 <= Wallet.Balance w + delta) ->
  balances_nonneg (update_balance wid delta d).
Proof.
  unfold balances_nonneg. intros Hnn Hw. rewrite List.Forall_forall in Hnn.
  rewrite wallets_update_balance. apply List.Forall_forall.
  intros w Hin. apply List.in_map_iff in Hin. destruct Hin as [w0 [<- Hw0]].
  unfold bump. destruct (N.eqb (Wallet.ID w0) wid) eqn:E.
  - apply N.eqb_eq in E. simpl. now apply Hw.
  - now apply Hnn.
Qed.

Lemma balances_nonneg_credit wid delta d :
  0 <= delta -> balances_nonneg d -> balances_nonneg (update_balance wid delta d).
Proof.
  intros Hd Hnn. apply balances_nonneg_update_balance; [exact Hnn|].
  intros w Hin _. unfold balances_nonneg in Hnn.
  rewrite List.Forall_forall in Hnn. specialize (Hnn w Hin). lia.
Qed.

Lemma balances_nonneg_debit w delta d :
  primary_key d -> In w (wallets d) -> delta <= Wallet.Balance w ->
  balances_nonneg d ->
  balances_nonneg (update_balance (Wallet.ID w) (- delta) d).
Proof.
  intros [Hnd _] Hin Hle Hnn.
  apply balances_nonneg_update_balance; [exact Hnn|].
  intros w' Hin' Hid.
  rewrite (unique_ID (wallets d) w' w Hnd Hin' Hin Hid). lia.
Qed.
End store_facts.

(** ** The cache after an invalidation *)

Section cache_facts.
Implicit Types (c : gmap string CacheVal) (k : string).

Lemma DeleteCache_same k c : DeleteCache k c !! k = None.
Proof. apply lookup_delete_eq. Qed.

Lemma DeleteCache_absent k k' c : c !! k = None -> DeleteCache k' c !! k = None.
Proof.
  intros Hc. unfold DeleteCache. rewrite lookup_delete.
  now destruct (decide (k' = k)).
Qed.

Lemma fold_left_absent (g : Z -> gmap string CacheVal -> gmap string CacheVal)
    k (l : list Z) c :
  (forall j c', c' !! k = None -> g j c' !! k = None) ->
  c !! k = None ->
  List.fold_left (fun c' j => g j c') l c !! k = None.
Proof.
  intros Hg. revert c. induction l as [|j l IH]; simpl; intros c Hc.
  - exact Hc.
  - apply IH. now apply Hg.
Qed.

Lemma fold_left_deleted (g : Z -> gmap string CacheVal -> gmap string CacheVal)
    k (l : list Z) c i :
  (forall j c', c' !! k = None -> g j c' !! k = None) ->
  In i l ->
  (forall c', g i c' !! k = None) ->
  List.fold_left (fun c' j => g j c') l c !! k = None.
Proof.
  intros Hg Hin Hi. revert c. induction l as [|j l IH]; simpl; intros c.
  - destruct Hin.
  - destruct Hin as [-> | Hin].
    + apply fold_left_absent; [exact Hg | apply Hi].
    + now apply IH.
Qed.

Lemma txhistory_key_default uid i :
  txhistory_key uid i 20 = default_size_key (txhistory_prefix uid) i.
Proof. reflexivity. Qed.

Lemma deposit_invalidate_wallet uid c :
  deposit_invalidate uid c !! wallet_key uid = None.
Proof.
  unfold deposit_invalidate.
  apply (fold_left_absent
           (fun i c' => DeleteCache (default_size_key (txhistory_prefix uid) i) c')).
  - intros j c' Hc'. now apply DeleteCache_absent.
  - apply DeleteCache_same.
Qed.

Lemma deposit_invalidate_page uid c i :
  In i invalidated_pages ->
  deposit_invalidate uid c !! txhistory_key uid i 20 = None.
Proof.
  intros Hi. rewrite txhistory_key_default. unfold deposit_invalidate.
  apply (fold_left_deleted
           (fun i c' => DeleteCache (default_size_key (txhistory_prefix uid) i) c')
           _ _ _ i).
  - intros j c' Hc'. now apply DeleteCache_absent.
  - exact Hi.
  - intros c'. apply DeleteCache_same.
Qed.

Lemma transfer_invalidate_from fromUserID toUserID c :
  transfer_invalidate fromUserID toUserID c !! wallet_key fromUserID = None.
Proof.
  unfold transfer_invalidate.
  apply (fold_left_absent
           (fun i c' =>
              DeleteCache (default_size_key (txhistory_prefix toUserID) i)
                (DeleteCache (default_size_key (txhistory_prefix fromUserID) i) c'))).
  - intros j c' Hc'. now do 2 apply DeleteCache_absent.
  - apply DeleteCache_absent, DeleteCache_same.
Qed.

Lemma transfer_invalidate_to fromUserID toUserID c :
  transfer_invalidate fromUserID toUserID c !! wallet_key toUserID = None.
Proof.
  unfold transfer_invalidate.
  apply (fold_left_absent
           (fun i c' =>
              DeleteCache (default_size_key (txhistory_prefix toUserID) i)
                (DeleteCache (default_size_key (txhistory_prefix fromUserID) i) c'))).
  - intros j c' Hc'. now do 2 apply DeleteCache_absent.
  - apply DeleteCache_same.
Qed.

Lemma transfer_invalidate_from_page fromUserID toUserID c i :
  In i invalidated_pages ->
  transfer_invalidate fromUserID toUserID c !! txhistory_key fromUserID i 20 = None.
Proof.
  intros Hi. rewrite txhistory_key_default. unfold transfer_invalidate.
  apply (fold_left_deleted
           (fun i c' =>
              DeleteCache (default_size_key (txhistory_prefix toUserID) i)
                (DeleteCache (default_size_key (txhistory_prefix fromUserID) i) c'))
           _ _ _ i).
  - intros j c' Hc'. now do 2 apply DeleteCache_absent.
  - exact Hi.
  - intros c'. apply DeleteCache_absent, DeleteCache_same.
Qed.

Lemma transfer_invalidate_to_page fromUserID toUserID c i :
  In i invalidated_pages ->
  transfer_invalidate fromUserID toUserID c !! txhistory_key toUserID i 20 = None.
Proof.
  intros Hi. rewrite txhistory_key_default. unfold transfer_invalidate.
  apply (fold_left_deleted
           (fun i c' =>
              DeleteCache (default_size_key (txhistory_prefix toUserID) i)
                (DeleteCache (default_size_key (txhistory_prefix fromUserID) i) c'))
           _ _ _ i).
  - intros j c' Hc'. now do 2 apply DeleteCache_absent.
  - exact Hi.
  - intros c'. apply DeleteCache_same.
Qed.

Lemma GetCache_wallet_absent c k : c !! k = None -> GetCache_wallet c k = None.
Proof. unfold GetCache_wallet. now intros ->. Qed.
End cache_facts.

(** ** The two mutating handlers, case by case *)

Section handler_facts.
Context `{Env}.

(** A transfer that is served. *)
Record transfer_served (now : Z) (A : N) (req : TransferRequest) (s : State)
    (toUser : User.t) (fromWallet toWallet : Wallet.t) : Prop := {
  ts_amount : 0 < Amount req;
  ts_user : first_user_by_username (db s) (ToUsername req) = Some toUser;
  ts_distinct : User.ID toUser <> A;
  ts_from : first_wallet_by_user (db s) A = Some fromWallet;
  ts_to : first_wallet_by_user (db s) (User.ID toUser) = Some toWallet;
  ts_funds : Amount req <= Wallet.Balance fromWallet
}.

Definition transfer_result (now : Z) (A : N) (req : TransferRequest) (s : State)
    (toUser : User.t) (fromWallet toWallet : Wallet.t) : State :=
  mkState (transfer_tx now fromWallet toWallet (Amount req) (db s))
          (transfer_invalidate A (User.ID toUser) (rdb s)).

Lemma TransferHandler_inv now u req s resp s' :
  TransferHandler now u req s = (resp, s') ->
  (s' = s /\ status resp <> StatusOK)
  \/ exists A toUser fromWallet toWallet,
       u = Some A
       /\ transfer_served now A req s toUser fromWallet toWallet
       /\ resp = JSON StatusOK (message "Transfer successful")
       /\ s' = transfer_result now A req s toUser fromWallet toWallet.
Proof.
  unfold TransferHandler. destruct u as [A|].
  2:{ intros [= <- <-]. left. split; [reflexivity | discriminate]. }
  destruct (negb (bind_transfer req) || (Amount req <=? 0)) eqn:Ebind.
  { intros [= <- <-]. left. split; [reflexivity | discriminate]. }
  destruct (first_user_by_username (db s) (ToUsername req)) as [toUser|] eqn:Eu.
  2:{ intros [= <- <-]. left. split; [reflexivity | discriminate]. }
  destruct (N.eqb (User.ID toUser) A) eqn:Eself.
  { intros [= <- <-]. left. split; [reflexivity | discriminate]. }
  destruct (first_wallet_by_user (db s) A) as [fromWallet|] eqn:Ef.
  2:{ intros [= <- <-]. left. split; [reflexivity | discriminate]. }
  destruct (first_wallet_by_user (db s) (User.ID toUser)) as [toWallet|] eqn:Et.
  2:{ intros [= <- <-]. left. split; [reflexivity | discriminate]. }
  destruct (Wallet.Balance fromWallet <? Amount req) eqn:Efunds.
  { intros [= <- <-]. left. split; [reflexivity | discriminate]. }
  intros [= <- <-]. right. exists A, toUser, fromWallet, toWallet.
  repeat split; try reflexivity; try assumption.
  - lia.
  - now apply N.eqb_neq.
  - lia.
Qed.

Lemma TransferHandler_served now A req s toUser fromWallet toWallet :
  ToUsername req <> "" ->
  transfer_served now A req s toUser fromWallet toWallet ->
  TransferHandler now (Some A) req s
  = (JSON StatusOK (message "Transfer successful"),
     transfer_result now A req s toUser fromWallet toWallet).
Proof.
  intros Hname [Hamt Hu Hd Hf Ht Hfunds]. unfold TransferHandler, bind_transfer.
  apply String.eqb_neq in Hname. rewrite Hname.
  replace (0 <? Amount req) with true by lia.
  replace (Amount req <=? 0) with false by lia. simpl.
  rewrite Hu. apply N.eqb_neq in Hd. rewrite Hd, Hf, Ht.
  replace (Wallet.Balance fromWallet <? Amount req) with false by lia.
  reflexivity.
Qed.

Definition deposit_result (now : Z) (userID : N) (req : DepositRequest)
    (s : State) (wallet : Wallet.t) : State :=
  mkState (deposit_tx now wallet (DepositAmount req) (db s))
          (deposit_invalidate userID (rdb s)).

Lemma DepositHandler_inv now u req s resp s' :
  DepositHandler now u req s = (resp, s') ->
  (s' = s /\ status resp <> StatusOK)
  \/ exists userID wallet,
       u = Some userID
       /\ 0 < DepositAmount req
       /\ first_wallet_by_user (db s) userID = Some wallet
       /\ resp = JSON StatusOK (message "Deposit successful")
       /\ s' = deposit_result now userID req s wallet.
Proof.
  unfold DepositHandler, bind_deposit. destruct u as [userID|].
  2:{ intros [= <- <-]. left. split; [reflexivity | discriminate]. }
  destruct (negb (0 <? DepositAmount req) || (DepositAmount req <=? 0)) eqn:Ebind.
  { intros [= <- <-]. left. split; [reflexivity | discriminate]. }
  destruct (first_wallet_by_user (db s) userID) as [wallet|] eqn:Ew.
  2:{ intros [= <- <-]. left. split; [reflexivity | discriminate]. }
  intros [= <- <-]. right. exists userID, wallet.
  repeat split; try reflexivity; try assumption. lia.
Qed.

Lemma DepositHandler_served now userID req s wallet :
  0 < DepositAmount req ->
  first_wallet_by_user (db s) userID = Some wallet ->
  DepositHandler now (Some userID) req s
  = (JSON StatusOK (message "Deposit successful"),
     deposit_result now userID req s wallet).
Proof.
  intros Hamt Hw. unfold DepositHandler, bind_deposit.
  replace (0 <? DepositAmount req) with true by lia.
  replace (DepositAmount req <=? 0) with false by lia. simpl.
  now rewrite Hw.
Qed.

(** A read served from the store. *)
Lemma GetWalletHandler_miss userID s wallet :
  rdb s !! wallet_key userID = None ->
  first_wallet_by_user (db s) userID = Some wallet ->
  GetWalletHandler (Some userID) s
  = (JSON StatusOK (wallet_info wallet false),
     mkState (db s) (SetCache (wallet_key userID) (cv_wallet wallet) (rdb s))).
Proof.
  intros Hc Hw. unfold GetWalletHandler.
  rewrite (GetCache_wallet_absent _ _ Hc). now rewrite Hw.
Qed.
End handler_facts.

(** ** A concrete ledger for the examples *)

Module Ledger.
(** Binary collation, tied rows in primary-key order. *)
Definition strict : Env := MySQL.env MySQL.binary MySQL.by_id.

Definition alice : N := 1.
Definition bob : N := 2.

(** Alice and Bob register (Alice with a capital) and open their
    wallets. *)
Definition opening : list Request :=
  [Register (mkRegisterRequest "Alice" "correcthorse");
   Register (mkRegisterRequest "bob" "batterystaple");
   CreateWallet (Some alice);
   CreateWallet (Some bob)].

Definition opened (E : Env) : State := snd (run opening empty_state).

(** Alice then holds 100. *)
Definition funded (E : Env) : State :=
  snd (run [Deposit 1000 (Some alice) (mkDepositRequest 100)] (opened E)).


(** Alice looks at her still empty history, ten entries a page. *)
Definition browsed (E : Env) : State :=
  snd (run [GetTransactionHistory (Some alice) "1" "10"] (opened E)).
End Ledger.

(** ** Read-only handlers and the invariants along an execution *)

Section executions.
Context `{Env}.

Lemma GetWalletHandler_db u s : db (snd (GetWalletHandler u s)) = db s.
Proof.
  unfold GetWalletHandler. destruct u as [userID|]; [|reflexivity].
  destruct (GetCache_wallet _ _); [reflexivity|].
  now destruct (first_wallet_by_user _ _).
Qed.

Lemma GetTransactionHistoryHandler_db u p ps s :
  db (snd (GetTransactionHistoryHandler u p ps s)) = db s.
Proof.
  unfold GetTransactionHistoryHandler. destruct u as [userID|]; [|reflexivity].
  destruct (first_wallet_by_user _ _); [|reflexivity].
  now destruct (GetCache_history _ _).
Qed.

Lemma transfer_tx_primary_key now fromWallet toWallet amount d :
  primary_key d -> primary_key (transfer_tx now fromWallet toWallet amount d).
Proof.
  intros Hpk. unfold transfer_tx.
  now apply primary_key_create_transaction; do 2 apply primary_key_update_balance.
Qed.

Lemma deposit_tx_primary_key now wallet amount d :
  primary_key d -> primary_key (deposit_tx now wallet amount d).
Proof.
  intros Hpk. unfold deposit_tx.
  now apply primary_key_create_transaction, primary_key_update_balance.
Qed.

Lemma handle_primary_key r s :
  primary_key (db s) -> primary_key (db (snd (handle r s))).
Proof.
  intros Hpk. destruct r as [req | u | now u req | now u req | u | u p ps]; simpl.
  - unfold RegisterHandler.
    destruct (negb (bind_register req)); [exact Hpk|].
    destruct (negb (isValidUsername _)); [exact Hpk|].
    destruct (negb (isValidPassword _)); [exact Hpk|].
    destruct (create_user _ _ _) as [d|] eqn:E; [|exact Hpk].
    simpl. eapply primary_key_create_user; eassumption.
  - unfold CreateWalletHandler. destruct u as [userID|]; [|exact Hpk].
    destruct (first_wallet_by_user _ _); [exact Hpk|].
    destruct (create_wallet _ _) as [[w d]|] eqn:E; [|exact Hpk].
    simpl. eapply primary_key_create_wallet; eassumption.
  - destruct (DepositHandler now u req s) as [resp s'] eqn:E.
    apply DepositHandler_inv in E.
    destruct E as [[-> _] | (userID & wallet & _ & _ & _ & _ & ->)]; [exact Hpk|].
    simpl. now apply deposit_tx_primary_key.
  - destruct (TransferHandler now u req s) as [resp s'] eqn:E.
    apply TransferHandler_inv in E.
    destruct E as [[-> _] | (A & toUser & fw & tw & _ & _ & _ & ->)]; [exact Hpk|].
    simpl. now apply transfer_tx_primary_key.
  - now rewrite GetWalletHandler_db.
  - now rewrite GetTransactionHistoryHandler_db.
Qed.

Lemma handle_balances_nonneg r s :
  primary_key (db s) -> balances_nonneg (db s) ->
  balances_nonneg (db (snd (handle r s))).
Proof.
  intros Hpk Hnn. destruct r as [req | u | now u req | now u req | u | u p ps]; simpl.
  - unfold RegisterHandler.
    destruct (negb (bind_register req)); [exact Hnn|].
    destruct (negb (isValidUsername _)); [exact Hnn|].
    destruct (negb (isValidPassword _)); [exact Hnn|].
    unfold create_user. destruct (List.existsb _ _); exact Hnn.
  - unfold CreateWalletHandler. destruct u as [userID|]; [|exact Hnn].
    destruct (first_wallet_by_user _ _); [exact Hnn|].
    unfold create_wallet. destruct (_ || _); [exact Hnn|].
    unfold balances_nonneg. simpl. apply List.Forall_app. split; [exact Hnn|].
    constructor; [simpl; lia | constructor].
  - destruct (DepositHandler now u req s) as [resp s'] eqn:E.
    apply DepositHandler_inv in E.
    destruct E as [[-> _] | (userID & wallet & _ & Hamt & _ & _ & ->)]; [exact Hnn|].
    simpl. unfold deposit_tx. apply balances_nonneg_credit; [lia | exact Hnn].
  - destruct (TransferHandler now u req s) as [resp s'] eqn:E.
    apply TransferHandler_inv in E.
    destruct E as [[-> _] | (A & toUser & fw & tw & _ & Hs & _ & ->)]; [exact Hnn|].
    destruct Hs as [Hamt _ _ Hf _ Hfunds]. apply first_wallet_In in Hf.
    simpl. unfold transfer_tx. apply balances_nonneg_credit; [lia|].
    apply balances_nonneg_debit; tauto.
  - now rewrite GetWalletHandler_db.
  - now rewrite GetTransactionHistoryHandler_db.
Qed.

Lemma run_cons r rs s :
  run (r :: rs) s
  = (fst (handle r s) :: fst (run rs (snd (handle r s))),
     snd (run rs (snd (handle r s)))).
Proof.
  simpl. destruct (handle r s) as [resp s1]. simpl.
  now destruct (run rs s1).
Qed.

Lemma run_primary_key rs s :
  primary_key (db s) -> primary_key (db (snd (run rs s))).
Proof.
  revert s. induction rs as [|r rs IH]; intros s Hpk; [exact Hpk|].
  rewrite run_cons. simpl. now apply IH, handle_primary_key.
Qed.
End executions.

(** * The claims *)

(** ** C3 *)

(** C3. A transfer from account [A] to a distinct existing account, for an
    amount strictly greater than the balance of [A], is refused with 400
    "Insufficient funds" and leaves the whole state as it was: both
    balances, the transaction table and the cache. *)
Theorem transfer_insufficient_funds `{Env} (now : Z) (A : N)
    (req : TransferRequest) (s : State) (toUser : User.t)
    (fromWallet toWallet : Wallet.t) :
  ToUsername req <> "" ->
  first_user_by_username (db s) (ToUsername req) = Some toUser ->
  User.ID toUser <> A ->
  first_wallet_by_user (db s) A = Some fromWallet ->
  first_wallet_by_user (db s) (User.ID toUser) = Some toWallet ->
  0 <= Wallet.Balance fromWallet ->
  Wallet.Balance fromWallet < Amount req ->
  TransferHandler now (Some A) req s
  = (JSON StatusBadRequest (error "Insufficient funds"), s).
Proof.
  intros Hname Hu Hd Hf Ht Hnn Hlt. unfold TransferHandler, bind_transfer.
  apply String.eqb_neq in Hname. rewrite Hname.
  replace (0 <? Amount req) with true by lia.
  replace (Amount req <=? 0) with false by lia. simpl.
  rewrite Hu. apply N.eqb_neq in Hd. rewrite Hd, Hf, Ht.
  now replace (Wallet.Balance fromWallet <? Amount req) with true by lia.
Qed.

(** Alice holds 100 and asks to send 101 to Bob. *)
Lemma transfer_insufficient_funds_witness :
  @TransferHandler Ledger.strict 2000 (Some Ledger.alice)
    (mkTransferRequest "bob" 101) (Ledger.funded Ledger.strict)
  = (JSON StatusBadRequest (error "Insufficient funds"),
     Ledger.funded Ledger.strict).
Proof.
  eapply (@transfer_insufficient_funds Ledger.strict 2000 Ledger.alice
            (mkTransferRequest "bob" 101) (Ledger.funded Ledger.strict)
            (User.mk 2 "bob" (MySQL.salted "batterystaple") "user")
            (Wallet.mk 1 1 100) (Wallet.mk 2 2 0)).
  - discriminate.
  - vm_compute. reflexivity.
  - vm_compute. discriminate.
  - vm_compute. reflexivity.
  - vm_compute. reflexivity.
  - simpl. lia.
  - simpl. lia.
Defined.

(** ** C4 *)






(** ** C5 *)

(** C5. Along every sequential execution of requests (registration, wallet
    creation, deposit, transfer, balance and history reads) from a state
    whose balances are all non-negative, the balances stay non-negative. *)
Theorem balances_never_negative `{Env} (rs : list Request) (s : State) :
  primary_key (db s) ->
  balances_nonneg (db s) ->
  balances_nonneg (db (snd (run rs s))).
Proof.
  revert s. induction rs as [|r rs IH]; intros s Hpk Hnn; [exact Hnn|].
  rewrite run_cons. simpl. apply IH.
  - now apply handle_primary_key.
  - now apply handle_balances_nonneg.
Qed.

Lemma balances_never_negative_witness :
  balances_nonneg
    (db (snd (@run Ledger.strict
                [Transfer 2000 (Some Ledger.alice) (mkTransferRequest "bob" 60);
                 Transfer 2001 (Some Ledger.alice) (mkTransferRequest "bob" 60);
                 GetWallet (Some Ledger.alice);
                 Deposit 2002 (Some Ledger.bob) (mkDepositRequest 5)]
                (Ledger.funded Ledger.strict)))).
Proof.
  apply (@balances_never_negative Ledger.strict).
  - split.
    + vm_compute. repeat constructor; simpl; intuition discriminate.
    + vm_compute. repeat constructor.
  - vm_compute. repeat constructor; discriminate.
Defined.

(** ** C6 *)

(** User identifiers are Go [uint]s. *)
Definition uint (n : N) : Prop := (n < 2 ^ 64)%N.

Lemma uid_string_inj (a b : N) : uint a -> uint b -> uid_string a = uid_string b -> a = b.
Proof.
  unfold uint, uid_string, Itoa. intros Ha Hb Heq.
  apply (inj pretty) in Heq. unfold wrap_int in Heq.
  change (2 ^ 64)%N with 18446744073709551616%N in *.
  change (2 ^ 64) with 18446744073709551616 in Heq.
  change (2 ^ 63) with 9223372036854775808 in Heq.
  Z.to_euclidean_division_equations. lia.
Qed.

Lemma wallet_key_inj (a b : N) : uint a -> uint b -> wallet_key a = wallet_key b -> a = b.
Proof.
  unfold wallet_key. intros Ha Hb Heq. simpl in Heq.
  injection Heq as Heq. now apply uid_string_inj.
Qed.

(** C6. Accounts [A] and [B] are distinct and both hold 0.  A deposit of
    100 into [A], a read of [A], a transfer of 40 from [A] to [B], then a
    read of each: the first read shows 100, the later ones 60 for [A] and 40
    for [B] (all three served from the store, not from the cache). *)
Theorem deposit_transfer_round_trip `{Env} (s : State) (A B : N) (nameB : string)
    (userB : User.t) (walletA walletB : Wallet.t) (t1 t2 : Z) :
  primary_key (db s) ->
  uint A -> uint B -> A <> B ->
  first_wallet_by_user (db s) A = Some walletA ->
  Wallet.Balance walletA = 0 ->
  nameB <> "" ->
  first_user_by_username (db s) nameB = Some userB ->
  User.ID userB = B ->
  first_wallet_by_user (db s) B = Some walletB ->
  Wallet.Balance walletB = 0 ->
  fst (run [Deposit t1 (Some A) (mkDepositRequest 100);
            GetWallet (Some A);
            Transfer t2 (Some A) (mkTransferRequest nameB 40);
            GetWallet (Some A);
            GetWallet (Some B)] s)
  = [JSON StatusOK (message "Deposit successful");
     JSON StatusOK (wallet_info (Wallet.with_balance walletA 100) false);
     JSON StatusOK (message "Transfer successful");
     JSON StatusOK (wallet_info (Wallet.with_balance walletA 60) false);
     JSON StatusOK (wallet_info (Wallet.with_balance walletB 40) false)].
Proof.
  intros Hpk HA HB Hne HwA HbA Hname HuB HidB HwB HbB. subst B.
  assert (Hids : Wallet.ID walletB <> Wallet.ID walletA).
  { intros Hid. apply first_wallet_In in HwA, HwB.
    destruct HwA as [HinA HuA], HwB as [HinB HuB'], Hpk as [Hnd _].
    apply Hne. rewrite <- HuA, <- HuB'. f_equal.
    now apply (unique_ID (wallets (db s))). }
  (* the deposit *)
  rewrite run_cons. cbn [handle].
  rewrite (DepositHandler_served t1 A _ s walletA); [|simpl; lia | exact HwA].
  cbn [fst snd]. f_equal.
  set (s1 := deposit_result t1 A (mkDepositRequest 100) s walletA).
  assert (HwA1 : first_wallet_by_user (db s1) A
                 = Some (Wallet.with_balance walletA 100)).
  { subst s1. simpl. unfold deposit_tx.
    rewrite first_wallet_create_transaction, first_wallet_update_balance, HwA.
    simpl. rewrite bump_same, HbA. reflexivity. }
  assert (HwB1 : first_wallet_by_user (db s1) (User.ID userB) = Some walletB).
  { subst s1. simpl. unfold deposit_tx.
    rewrite first_wallet_create_transaction, first_wallet_update_balance, HwB.
    simpl. now rewrite bump_other. }
  (* the first read *)
  rewrite run_cons. cbn [handle].
  rewrite (GetWalletHandler_miss A s1 _ (deposit_invalidate_wallet A (rdb s)) HwA1).
  cbn [fst snd]. f_equal.
  set (s2 := mkState (db s1) _).
  (* the transfer *)
  rewrite run_cons. cbn [handle].
  rewrite (TransferHandler_served t2 A _ s2 userB
             (Wallet.with_balance walletA 100) walletB); [|exact Hname|].
  2:{ split; simpl; try assumption; lia. }
  cbn [fst snd]. f_equal.
  set (s3 := transfer_result t2 A _ s2 userB _ walletB).
  assert (HwA3 : first_wallet_by_user (db s3) A
                 = Some (Wallet.with_balance walletA 60)).
  { subst s3 s2. unfold transfer_result, transfer_tx. cbn [db Amount].
    rewrite first_wallet_create_transaction.
    rewrite !first_wallet_update_balance, HwA1. simpl.
    rewrite (bump_same (Wallet.with_balance walletA 100)).
    rewrite bump_other; [reflexivity | simpl; congruence]. }
  assert (HwB3 : first_wallet_by_user (db s3) (User.ID userB)
                 = Some (Wallet.with_balance walletB 40)).
  { subst s3 s2. unfold transfer_result, transfer_tx. cbn [db Amount].
    rewrite first_wallet_create_transaction.
    rewrite !first_wallet_update_balance, HwB1. simpl.
    rewrite (bump_other (Wallet.ID (Wallet.with_balance walletA 100)));
      [|simpl; congruence].
    rewrite bump_same, HbB. reflexivity. }
  (* the two last reads *)
  rewrite run_cons. cbn [handle].
  rewrite (GetWalletHandler_miss A s3 _
             (transfer_invalidate_from A (User.ID userB) (rdb s2)) HwA3).
  cbn [fst snd]. f_equal.
  rewrite run_cons. cbn [handle].
  rewrite (GetWalletHandler_miss (User.ID userB) _ (Wallet.with_balance walletB 40)).
  - reflexivity.
  - cbn [rdb]. unfold SetCache. rewrite lookup_insert_ne.
    + apply transfer_invalidate_to.
    + intros Heq. apply Hne. now apply wallet_key_inj.
  - exact HwB3.
Qed.

Lemma deposit_transfer_round_trip_witness :
  fst (@run Ledger.strict
         [Deposit 1000 (Some Ledger.alice) (mkDepositRequest 100);
          GetWallet (Some Ledger.alice);
          Transfer 1001 (Some Ledger.alice) (mkTransferRequest "bob" 40);
          GetWallet (Some Ledger.alice);
          GetWallet (Some Ledger.bob)] (Ledger.opened Ledger.strict))
  = [JSON StatusOK (message "Deposit successful");
     JSON StatusOK (wallet_info (Wallet.with_balance (Wallet.mk 1 1 0) 100) false);
     JSON StatusOK (message "Transfer successful");
     JSON StatusOK (wallet_info (Wallet.with_balance (Wallet.mk 1 1 0) 60) false);
     JSON StatusOK (wallet_info (Wallet.with_balance (Wallet.mk 2 2 0) 40) false)].
Proof.
  apply (@deposit_transfer_round_trip Ledger.strict (Ledger.opened Ledger.strict)
           Ledger.alice Ledger.bob "bob"
           (User.mk 2 "bob" (MySQL.salted "batterystaple") "user")
           (Wallet.mk 1 1 0) (Wallet.mk 2 2 0) 1000 1001).
  - split.
    + vm_compute. repeat constructor; simpl; intuition discriminate.
    + vm_compute. repeat constructor.
  - reflexivity.
  - reflexivity.
  - discriminate.
  - vm_compute. reflexivity.
  - reflexivity.
  - discriminate.
  - vm_compute. reflexivity.
  - reflexivity.
  - vm_compute. reflexivity.
  - reflexivity.
Defined.

(** ** The history handler, case by case *)

(** The page the history handler computes from the store on a cache miss. *)
Definition store_page `{Env} (d : DB) (wid : N) (page pageSize : Z) : HistoryPage :=
  let total := count_transactions d wid in
  mkPage (find_transactions d wid (wrap_int ((page - 1) * pageSize)) pageSize)
         page pageSize total
         (Z.quot (wrap_int (total + pageSize - 1)) pageSize).

(** [n] is the ceiling of [a / b]. *)
Definition is_ceiling (n a b : Z) : Prop := (n - 1) * b < a <= n * b.

Section history_facts.
Context `{Env}.

Lemma GetTransactionHistoryHandler_inv u p ps s h c :
  fst (GetTransactionHistoryHandler (Some u) p ps s)
  = JSON StatusOK (history h c) ->
  exists w,
    first_wallet_by_user (db s) u = Some w
    /\ if c
       then GetCache_history (rdb s)
              (txhistory_key u (query_page p) (query_page_size ps)) = Some h
       else h = store_page (db s) (Wallet.ID w) (query_page p) (query_page_size ps).
Proof.
  unfold GetTransactionHistoryHandler.
  destruct (first_wallet_by_user (db s) u) as [w|]; [|discriminate].
  destruct (GetCache_history _ _) as [cached|] eqn:E; simpl.
  - intros [= <- <-]. exists w. now split.
  - intros [= <- <-]. exists w. now split.
Qed.

Lemma query_page_size_range ps : 1 <= query_page_size ps <= 100.
Proof.
  unfold query_page_size. destruct (String.eqb ps ""); [lia|].
  destruct (Atoi ps) as [v|]; [|lia].
  destruct ((0 <? v) && (v <=? 100)) eqn:E; lia.
Qed.

Lemma query_page_pos p : 1 <= query_page p.
Proof.
  unfold query_page. destruct (String.eqb p ""); [lia|].
  destruct (Atoi p) as [v|]; [|lia].
  destruct (0 <? v) eqn:E; lia.
Qed.

Lemma wrap_int_small z : min_int <= z <= max_int -> wrap_int z = z.
Proof.
  unfold wrap_int, min_int, max_int.
  change (2 ^ 64) with 18446744073709551616.
  change (2 ^ 63) with 9223372036854775808.
  intros Hz. Z.to_euclidean_division_equations. lia.
Qed.

Lemma StronglySorted_app_cross {A : Type} (R : A -> A -> Prop) (l1 l2 : list A) :
  StronglySorted R (l1 ++ l2) ->
  forall a b, In a l1 -> In b l2 -> R a b.
Proof.
  induction l1 as [|x l1 IH]; simpl; intros Hs a b Ha Hb; [destruct Ha|].
  inversion Hs as [|? ? Hs' Hx]; subst.
  destruct Ha as [-> | Ha].
  - rewrite List.Forall_forall in Hx. apply Hx, List.in_or_app. now right.
  - now apply IH.
Qed.

Lemma StronglySorted_skipn {A : Type} (R : A -> A -> Prop) (n : nat) (l : list A) :
  StronglySorted R l -> StronglySorted R (skipn n l).
Proof.
  revert l. induction n as [|n IH]; intros l Hs; [exact Hs|].
  destruct l as [|x l]; [exact Hs|]. simpl. apply IH.
  now inversion Hs.
Qed.

Lemma StronglySorted_firstn {A : Type} (R : A -> A -> Prop) (n : nat) (l : list A) :
  StronglySorted R l -> StronglySorted R (firstn n l).
Proof.
  revert l. induction n as [|n IH]; intros l Hs; [constructor|].
  destruct l as [|x l]; [constructor|]. simpl.
  inversion Hs as [|? ? Hs' Hx]; subst. constructor; [now apply IH|].
  rewrite List.Forall_forall in *. intros y Hy. apply Hx.
  rewrite <- (List.firstn_skipn n l). apply List.in_or_app. now left.
Qed.

Lemma In_skipn {A : Type} (n : nat) (l : list A) (x : A) :
  In x (skipn n l) -> In x l.
Proof.
  intros Hx. rewrite <- (List.firstn_skipn n l). apply List.in_or_app. now right.
Qed.

Lemma In_firstn {A : Type} (n : nat) (l : list A) (x : A) :
  In x (firstn n l) -> In x l.
Proof.
  intros Hx. rewrite <- (List.firstn_skipn n l). apply List.in_or_app. now left.
Qed.

(** Two windows of a sorted list, the second one starting after the first
    one ends. *)
Lemma windows_ordered {A : Type} (R : A -> A -> Prop) (l : list A)
    (o1 o2 n : nat) (a b : A) :
  StronglySorted R l -> (o1 + n <= o2)%nat ->
  In a (firstn n (skipn o1 l)) -> In b (firstn n (skipn o2 l)) -> R a b.
Proof.
  intros Hs Ho Ha Hb.
  apply (StronglySorted_app_cross R (firstn n (skipn o1 l)) (skipn n (skipn o1 l))).
  - rewrite List.firstn_skipn. now apply StronglySorted_skipn.
  - exact Ha.
  - apply In_firstn in Hb.
    replace o2 with ((o2 - (o1 + n)) + (n + o1))%nat in Hb by lia.
    rewrite <- !List.skipn_skipn in Hb. now apply In_skipn in Hb.
Qed.

Lemma find_transactions_sorted d wid offset pageSize :
  StronglySorted MySQL.created_desc (find_transactions d wid offset pageSize).
Proof.
  unfold find_transactions.
  apply StronglySorted_firstn, StronglySorted_skipn.
  apply order_created_at_desc_sorted.
Qed.

Lemma total_pages_ceiling total pageSize :
  0 <= total -> 1 <= pageSize -> total + pageSize - 1 <= max_int ->
  is_ceiling (Z.quot (wrap_int (total + pageSize - 1)) pageSize) total pageSize.
Proof.
  intros Ht Hp Hmax. rewrite wrap_int_small by (unfold min_int; lia).
  rewrite Z.quot_div_nonneg by lia. unfold is_ceiling.
  pose proof (Z.div_mod (total + pageSize - 1) pageSize ltac:(lia)) as Hdm.
  pose proof (Z.mod_pos_bound (total + pageSize - 1) pageSize ltac:(lia)) as Hb.
  nia.
Qed.
End history_facts.

(** ** C7 *)

(** C7 as stated: a requested page size is clamped into [1, 100], so that
    150 is served as 100. *)
Definition page_size_clamped `{Env} (u : N) (p ps : string) (s : State) : Prop :=
  forall v h c,
    Atoi ps = Some v ->
    fst (GetTransactionHistoryHandler (Some u) p ps s)
    = JSON StatusOK (history h c) ->
    hp_page_size h = Z.max 1 (Z.min 100 v).

(** C7, counterexample. Alice asks for [page_size=150]: the page comes with
    the default size 20, not with 100. *)
Lemma page_size_150_served_as_20 :
  ~ @page_size_clamped Ledger.strict Ledger.alice "" "150"
      (Ledger.funded Ledger.strict).
Proof.
  intros Hclaim.
  specialize (Hclaim 150
    (mkPage [Transaction.mk 1 None (Some 1%N) 100 "deposit" 1000] 1 20 1 1) false).
  assert (Hsize : 20 = Z.max 1 (Z.min 100 150)).
  { apply Hclaim; vm_compute; reflexivity. }
  vm_compute in Hsize. discriminate Hsize.
Qed.

(** C7, amended. The effective page size lies in [1, 100].  It is the
    requested size when that parses to an integer of [1, 100], and the
    default 20 in every other case: the parameter absent, not a number, or
    out of range (nothing is clamped to the nearer bound). *)
Theorem page_size_default_unless_in_range (ps : string) :
  1 <= query_page_size ps <= 100
  /\ (ps = "" -> query_page_size ps = 20)
  /\ (Atoi ps = None -> query_page_size ps = 20)
  /\ (forall v, Atoi ps = Some v -> 1 <= v <= 100 -> query_page_size ps = v)
  /\ (forall v, Atoi ps = Some v -> ~ 1 <= v <= 100 -> query_page_size ps = 20).
Proof.
  split; [apply query_page_size_range|].
  unfold query_page_size. repeat split.
  - now intros ->.
  - intros ->. now destruct (String.eqb ps "").
  - intros v Hv Hr. rewrite Hv.
    destruct (String.eqb ps "") eqn:E.
    + apply String.eqb_eq in E. subst ps. discriminate Hv.
    + now replace ((0 <? v) && (v <=? 100)) with true by lia.
  - intros v Hv Hr. rewrite Hv.
    destruct (String.eqb ps ""); [reflexivity|].
    now replace ((0 <? v) && (v <=? 100)) with false by lia.
Qed.

Lemma page_size_default_unless_in_range_witness :
  query_page_size "150" = 20 /\ query_page_size "100" = 100.
Proof.
  split.
  - apply (proj2 (proj2 (proj2 (proj2
             (page_size_default_unless_in_range "150"))))) with (v := 150).
    + reflexivity.
    + lia.
  - apply (proj1 (proj2 (proj2 (proj2
             (page_size_default_unless_in_range "100"))))) with (v := 100).
    + reflexivity.
    + lia.
Defined.

(** ** C9 *)

(** C9 as stated: whatever answers the call, the entries come in
    non-increasing creation-time order and [total_pages] is the ceiling of
    the number of the account's entries over the page size. *)
Definition history_total_pages_current `{Env} (u : N) (p ps : string) (s : State)
    : Prop :=
  forall h c w,
    fst (GetTransactionHistoryHandler (Some u) p ps s)
    = JSON StatusOK (history h c) ->
    first_wallet_by_user (db s) u = Some w ->
    StronglySorted MySQL.created_desc (hp_transactions h)
    /\ is_ceiling (hp_total_pages h)
         (count_transactions (db s) (Wallet.ID w)) (hp_page_size h).

(** C9, on the code. Alice has looked at her empty history with
    [page=1&page_size=10], then deposits 100.  Asked again while the cached
    page lives (60 s), the same query is answered from the cache, with
    [total = 0] and [total_pages = 0], although one entry now names her
    wallet and the ceiling of 1/10 is 1: the deposit deleted the cached
    pages of size 20 only. *)
Lemma history_total_pages_stale :
  fst (@run Ledger.strict
         [GetTransactionHistory (Some Ledger.alice) "1" "10";
          Deposit 1000 (Some Ledger.alice) (mkDepositRequest 100);
          GetTransactionHistory (Some Ledger.alice) "1" "10"]
         (Ledger.opened Ledger.strict))
  = [JSON StatusOK (history (mkPage [] 1 10 0 0) false);
     JSON StatusOK (message "Deposit successful");
     JSON StatusOK (history (mkPage [] 1 10 0 0) true)]
  /\ @count_transactions
       (db (snd (@run Ledger.strict
                   [Deposit 1000 (Some Ledger.alice) (mkDepositRequest 100)]
                   (Ledger.browsed Ledger.strict))))
       1
     = 1
  /\ ~ @history_total_pages_current Ledger.strict Ledger.alice "1" "10"
        (snd (@run Ledger.strict
                [Deposit 1000 (Some Ledger.alice) (mkDepositRequest 100)]
                (Ledger.browsed Ledger.strict))).
Proof.
  split; [vm_compute; reflexivity|]. split; [vm_compute; reflexivity|].
  intros Hclaim.
  destruct (Hclaim (mkPage [] 1 10 0 0) true (Wallet.mk 1 1 100)) as [_ Hceil].
  - vm_compute. reflexivity.
  - vm_compute. reflexivity.
  - vm_compute in Hceil. destruct Hceil as [_ Hle]. now apply Hle.
Qed.

(** X23. When a history query is answered from the store (a cache miss)
    and the table has at most 2^63 - 101 rows, the entries come in
    non-increasing creation-time order, the page size is the effective one,
    [total] is the number of entries that name the account's wallet as
    source or destination, and [total_pages] is the ceiling of [total] over
    the effective page size. *)
Theorem history_page_from_store `{Env} (s : State) (u : N) (p ps : string)
    (h : HistoryPage) :
  Z.of_nat (List.length (transactions (db s))) <= max_int - 100 ->
  fst (GetTransactionHistoryHandler (Some u) p ps s)
  = JSON StatusOK (history h false) ->
  exists w,
    first_wallet_by_user (db s) u = Some w
    /\ StronglySorted MySQL.created_desc (hp_transactions h)
    /\ hp_page_size h = query_page_size ps
    /\ hp_total h = count_transactions (db s) (Wallet.ID w)
    /\ is_ceiling (hp_total_pages h) (hp_total h) (hp_page_size h).
Proof.
  intros Hsize Hrun. apply GetTransactionHistoryHandler_inv in Hrun.
  destruct Hrun as (w & Hw & ->). exists w. split; [exact Hw|].
  unfold store_page. cbn [hp_transactions hp_page_size hp_total hp_total_pages].
  split; [apply find_transactions_sorted|]. do 2 (split; [reflexivity|]).
  pose proof (query_page_size_range ps) as Hps.
  assert (Hcount : 0 <= count_transactions (db s) (Wallet.ID w)
                   <= Z.of_nat (List.length (transactions (db s)))).
  { unfold count_transactions.
    pose proof (List.filter_length_le (involves (Wallet.ID w)) (transactions (db s))).
    lia. }
  apply total_pages_ceiling; lia.
Qed.

Lemma history_page_from_store_witness :
  exists w,
    @first_wallet_by_user (db (Ledger.funded Ledger.strict)) Ledger.alice = Some w
    /\ StronglySorted MySQL.created_desc
         [Transaction.mk 1 None (Some 1%N) 100 "deposit" 1000]
    /\ 10 = @query_page_size "10"
    /\ 1 = @count_transactions (db (Ledger.funded Ledger.strict)) (Wallet.ID w)
    /\ is_ceiling 1 1 10.
Proof.
  apply (@history_page_from_store Ledger.strict (Ledger.funded Ledger.strict)
           Ledger.alice "1" "10"
           (mkPage [Transaction.mk 1 None (Some 1%N) 100 "deposit" 1000] 1 10 1 1)).
  - vm_compute. discriminate.
  - vm_compute. reflexivity.
Defined.

(** ** C2 *)

(** C2 as stated, for one key: a served mutation leaves the key out of the
    cache. *)
Definition mutation_deletes_key `{Env} (r : Request) (s : State) (k : string)
    : Prop :=
  forall resp s',
    handle r s = (resp, s') -> status resp = StatusOK -> rdb s' !! k = None.

(** C2, on the code. Alice has the first page of her history cached under
    page size 10 and deposits 100.  The deposit changes that page (it now
    has one entry) and leaves the key in the cache; the next read of the
    page, while the cached page lives (60 s), is a hit that still shows no
    entry. *)
Lemma deposit_keeps_page_of_other_size :
  ~ @mutation_deletes_key Ledger.strict
      (Deposit 1000 (Some Ledger.alice) (mkDepositRequest 100))
      (Ledger.browsed Ledger.strict)
      (txhistory_key Ledger.alice 1 10)
  /\ @store_page Ledger.strict
       (db (snd (@handle Ledger.strict
                   (Deposit 1000 (Some Ledger.alice) (mkDepositRequest 100))
                   (Ledger.browsed Ledger.strict))))
       1 1 10
     = mkPage [Transaction.mk 1 None (Some 1%N) 100 "deposit" 1000] 1 10 1 1
  /\ fst (@run Ledger.strict
            [Deposit 1000 (Some Ledger.alice) (mkDepositRequest 100);
             GetTransactionHistory (Some Ledger.alice) "1" "10"]
            (Ledger.browsed Ledger.strict))
     = [JSON StatusOK (message "Deposit successful");
        JSON StatusOK (history (mkPage [] 1 10 0 0) true)].
Proof.
  split; [|split; vm_compute; reflexivity].
  intros Hclaim.
  specialize (Hclaim (JSON StatusOK (message "Deposit successful"))
    (snd (@handle Ledger.strict
            (Deposit 1000 (Some Ledger.alice) (mkDepositRequest 100))
            (Ledger.browsed Ledger.strict)))).
  assert (Hgone : rdb (snd (@handle Ledger.strict
                    (Deposit 1000 (Some Ledger.alice) (mkDepositRequest 100))
                    (Ledger.browsed Ledger.strict)))
                  !! txhistory_key Ledger.alice 1 10 = None).
  { apply Hclaim; vm_compute; reflexivity. }
  vm_compute in Hgone. discriminate Hgone.
Qed.

(** The users whose account a request credits or debits. *)
Definition mutated_users `{Env} (r : Request) (s : State) : list N :=
  match r with
  | Deposit _ (Some userID) _ => [userID]
  | Transfer _ (Some fromUserID) req =>
      match first_user_by_username (db s) (ToUsername req) with
      | Some toUser => [fromUserID; User.ID toUser]
      | None => []
      end
  | _ => []
  end.

(** X22. A served deposit or transfer deletes, for every account it
    credits or debits, the cached balance and the cached history pages 1 to
    5 of page size 20.  With no other request in between, the next balance
    read of such an account is therefore answered from the store, with the
    wallet row the mutation left there. *)
Theorem mutation_invalidates_balance_and_first_pages `{Env} (r : Request)
    (s s' : State) (resp : Response) (u : N) :
  handle r s = (resp, s') ->
  status resp = StatusOK ->
  In u (mutated_users r s) ->
  rdb s' !! wallet_key u = None
  /\ (forall i, In i invalidated_pages -> rdb s' !! txhistory_key u i 20 = None)
  /\ exists w,
       first_wallet_by_user (db s') u = Some w
       /\ fst (GetWalletHandler (Some u) s') = JSON StatusOK (wallet_info w false).
Proof.
  intros Hrun Hok Hu.
  assert (Hread : rdb s' !! wallet_key u = None ->
                  (exists w, first_wallet_by_user (db s') u = Some w) ->
                  exists w, first_wallet_by_user (db s') u = Some w
                            /\ fst (GetWalletHandler (Some u) s')
                               = JSON StatusOK (wallet_info w false)).
  { intros Hc [w Hw]. exists w. split; [exact Hw|].
    now rewrite (GetWalletHandler_miss u s' w Hc Hw). }
  destruct r as [req | u0 | now u0 req | now u0 req | u0 | u0 p ps];
    simpl in Hu; try contradiction.
  - (* Deposit *)
    destruct u0 as [userID|]; [|contradiction].
    destruct Hu as [<- | []]. cbn [handle] in Hrun.
    apply DepositHandler_inv in Hrun.
    destruct Hrun as [[_ Hne] | (u1 & w & [= <-] & Hamt & Hw & -> & ->)];
      [contradiction|].
    assert (Hc : rdb (deposit_result now userID req s w) !! wallet_key userID = None)
      by apply deposit_invalidate_wallet.
    split; [exact Hc|]. split.
    + intros i Hi. now apply deposit_invalidate_page.
    + apply Hread; [exact Hc|]. eexists. simpl. unfold deposit_tx.
      rewrite first_wallet_create_transaction, first_wallet_update_balance, Hw.
      reflexivity.
  - (* Transfer *)
    destruct u0 as [fromUserID|]; [|contradiction].
    cbn [handle] in Hrun. apply TransferHandler_inv in Hrun.
    destruct Hrun as [[_ Hne] | (A & toUser & fw & tw & [= <-] & Hs & -> & ->)];
      [contradiction|].
    destruct Hs as [Hamt Huser Hd Hf Ht Hfunds]. rewrite Huser in Hu.
    assert (Hstore : forall v w0, first_wallet_by_user (db s) v = Some w0 ->
              exists w, first_wallet_by_user
                          (db (transfer_result now fromUserID req s toUser fw tw)) v
                        = Some w).
    { intros v w0 Hv. eexists. simpl. unfold transfer_tx.
      rewrite first_wallet_create_transaction, !first_wallet_update_balance, Hv.
      reflexivity. }
    destruct Hu as [<- | [<- | []]].
    + assert (Hc : rdb (transfer_result now fromUserID req s toUser fw tw)
                   !! wallet_key fromUserID = None)
        by apply transfer_invalidate_from.
      split; [exact Hc|]. split.
      * intros i Hi. now apply transfer_invalidate_from_page.
      * apply Hread; [exact Hc|]. now apply (Hstore _ fw).
    + assert (Hc : rdb (transfer_result now fromUserID req s toUser fw tw)
                   !! wallet_key (User.ID toUser) = None)
        by apply transfer_invalidate_to.
      split; [exact Hc|]. split.
      * intros i Hi. now apply transfer_invalidate_to_page.
      * apply Hread; [exact Hc|]. now apply (Hstore _ tw).
Qed.

(** Alice has her balance 100 cached and sends 40 to Bob. *)
Lemma mutation_invalidates_balance_and_first_pages_witness :
  exists w,
    @first_wallet_by_user
      (db (snd (@run Ledger.strict
                  [GetWallet (Some Ledger.alice);
                   Transfer 2000 (Some Ledger.alice) (mkTransferRequest "bob" 40)]
                  (Ledger.funded Ledger.strict))))
      Ledger.alice
    = Some w
    /\ fst (GetWalletHandler (Some Ledger.alice)
              (snd (@run Ledger.strict
                      [GetWallet (Some Ledger.alice);
                       Transfer 2000 (Some Ledger.alice) (mkTransferRequest "bob" 40)]
                      (Ledger.funded Ledger.strict))))
       = JSON StatusOK (wallet_info w false).
Proof.
  apply (@mutation_invalidates_balance_and_first_pages Ledger.strict
           (Transfer 2000 (Some Ledger.alice) (mkTransferRequest "bob" 40))
           (snd (@run Ledger.strict [GetWallet (Some Ledger.alice)]
                   (Ledger.funded Ledger.strict)))
           _ (JSON StatusOK (message "Transfer successful"))).
  - vm_compute. reflexivity.
  - reflexivity.
  - vm_compute. left. reflexivity.
Defined.

(** ** Registered names are lower-case *)




Section registration.
Context `{Env}.

Lemma RegisterHandler_inv req s resp s' :
  RegisterHandler req s = (resp, s') ->
  status resp = StatusCreated ->
  RegUsername req <> ""
  /\ rdb s' = rdb s
  /\ wallets (db s') = wallets (db s)
  /\ users (db s')
     = users (db s)
       ++ [User.mk (users_seq (db s)) (ToLower (RegUsername req))
             (bcrypt (RegPassword req)) "user"].
Proof.
  unfold RegisterHandler, bind_register.
  destruct (String.eqb (RegUsername req) "") eqn:Ename; simpl.
  { intros [= <- <-]. discriminate. }
  destruct (negb (negb (String.eqb (RegPassword req) ""))).
  { intros [= <- <-]. discriminate. }
  destruct (negb (isValidUsername _)).
  { intros [= <- <-]. discriminate. }
  destruct (negb (isValidPassword _)).
  { intros [= <- <-]. discriminate. }
  unfold create_user. destruct (List.existsb _ _).
  { intros [= <- <-]. discriminate. }
  intros [= <- <-] _. apply String.eqb_neq in Ename. now repeat split.
Qed.



End registration.

(** ** C1: transfers served concurrently *)

(** [TransferHandler] reaches the store five times: three reads
    ([First] on the target user, on the sender's wallet, on the recipient's
    wallet), the transaction, and the cache invalidation.  Requests served
    concurrently interleave at these accesses; the transaction is taken as
    one indivisible access. *)
Module Interleaving.
Section threads.
Context `{Env}.

(** A call of [TransferHandler], at its next access to the store, with
    the locals it holds there. *)
Inductive Thread :=
| at_find_user (now : Z) (ctxUserID : option N) (req : TransferRequest)
| at_find_sender (now : Z) (fromUserID : N) (req : TransferRequest)
    (toUser : User.t)
| at_find_recipient (now : Z) (fromUserID : N) (req : TransferRequest)
    (toUser : User.t) (fromWallet : Wallet.t)
| at_transaction (now : Z) (fromUserID : N) (req : TransferRequest)
    (toUser : User.t) (fromWallet toWallet : Wallet.t)
| at_invalidate (fromUserID : N) (toUser : User.t)
| answered (resp : Response).

(** One access to the store, and the handler's code up to the next. *)
Definition step (t : Thread) (s : State) : Thread * State :=
  match t with
  | at_find_user now ctxUserID req =>
      match ctxUserID with
      | None => (answered (JSON StatusUnauthorized (error "Unauthorized")), s)
      | Some fromUserID =>
        if negb (bind_transfer req) || (Amount req <=? 0)
        then (answered (JSON StatusBadRequest (error "Invalid request")), s)
        else
        match first_user_by_username (db s) (ToUsername req) with
        | None =>
            (answered (JSON StatusNotFound (error "Target user not found")), s)
        | Some toUser =>
            if N.eqb (User.ID toUser) fromUserID
            then (answered (JSON StatusBadRequest
                              (error "Cannot transfer to yourself")), s)
            else (at_find_sender now fromUserID req toUser, s)
        end
      end
  | at_find_sender now fromUserID req toUser =>
      match first_wallet_by_user (db s) fromUserID with
      | None =>
          (answered (JSON StatusNotFound (error "Sender wallet not found")), s)
      | Some fromWallet =>
          (at_find_recipient now fromUserID req toUser fromWallet, s)
      end
  | at_find_recipient now fromUserID req toUser fromWallet =>
      match first_wallet_by_user (db s) (User.ID toUser) with
      | None =>
          (answered (JSON StatusNotFound (error "Recipient wallet not found")), s)
      | Some toWallet =>
          if Wallet.Balance fromWallet <? Amount req
          then (answered (JSON StatusBadRequest (error "Insufficient funds")), s)
          else (at_transaction now fromUserID req toUser fromWallet toWallet, s)
      end
  | at_transaction now fromUserID req toUser fromWallet toWallet =>
      (at_invalidate fromUserID toUser,
       mkState (transfer_tx now fromWallet toWallet (Amount req) (db s)) (rdb s))
  | at_invalidate fromUserID toUser =>
      (answered (JSON StatusOK (message "Transfer successful")),
       mkState (db s) (transfer_invalidate fromUserID (User.ID toUser) (rdb s)))
  | answered resp => (answered resp, s)
  end.

Fixpoint steps (n : nat) (t : Thread) (s : State) : Thread * State :=
  match n with
  | O => (t, s)
  | S n' => let '(t', s') := step t s in steps n' t' s'
  end.

(** The threads of a pool take their steps in the order of the
    schedule, which names the thread to move by its index. *)
Fixpoint interleave (schedule : list nat) (pool : list Thread) (s : State)
    : list Thread * State :=
  match schedule with
  | [] => (pool, s)
  | i :: schedule' =>
      match pool !! i with
      | None => interleave schedule' pool s
      | Some t =>
          let '(t', s') := step t s in
          interleave schedule' (<[i := t']> pool) s'
      end
  end.

Lemma steps_answered n resp s : steps n (answered resp) s = (answered resp, s).
Proof. induction n as [|n IH]; simpl; [reflexivity | exact IH]. Qed.

(** A call that runs alone does what [TransferHandler] does. *)
Lemma steps_alone now u req s :
  steps 5 (at_find_user now u req) s
  = (answered (fst (TransferHandler now u req s)),
     snd (TransferHandler now u req s)).
Proof.
  unfold TransferHandler. cbn [steps step].
  destruct u as [fromUserID|]; [|reflexivity].
  destruct (negb (bind_transfer req) || (Amount req <=? 0)); [reflexivity|].
  destruct (first_user_by_username (db s) (ToUsername req)) as [toUser|];
    [|reflexivity].
  destruct (N.eqb (User.ID toUser) fromUserID); [reflexivity|].
  cbn [step].
  destruct (first_wallet_by_user (db s) fromUserID) as [fromWallet|];
    [|reflexivity].
  cbn [step].
  destruct (first_wallet_by_user (db s) (User.ID toUser)) as [toWallet|];
    [|reflexivity].
  destruct (Wallet.Balance fromWallet <? Amount req); reflexivity.
Qed.
End threads.

(** Two requests of Alice, each to send 60 to Bob. *)
Definition two_transfers : list Thread :=
  [at_find_user 2000 (Some Ledger.alice) (mkTransferRequest "bob" 60);
   at_find_user 2000 (Some Ledger.alice) (mkTransferRequest "bob" 60)].

(** The first request is served to its end before the second starts. *)
Definition one_after_the_other : list nat :=
  [0; 0; 0; 0; 0; 1; 1; 1; 1; 1]%nat.

(** Both requests read the wallets before either runs its transaction. *)
Definition reads_first : list nat :=
  [0; 0; 0; 1; 1; 1; 0; 1; 0; 1]%nat.
End Interleaving.

(** Served one after the other, the two transfers of 60 out of 100 end as
    C1 says: one success, one refusal, 40 left. *)
Lemma transfers_one_after_the_other :
  let '(pool, s) :=
    @Interleaving.interleave Ledger.strict Interleaving.one_after_the_other
      Interleaving.two_transfers (Ledger.funded Ledger.strict) in
  pool = [Interleaving.answered (JSON StatusOK (message "Transfer successful"));
          Interleaving.answered (JSON StatusBadRequest (error "Insufficient funds"))]
  /\ first_wallet_by_user (db s) Ledger.alice = Some (Wallet.mk 1 1 40).
Proof. vm_compute. split; reflexivity. Qed.

(** C1, on the code. Alice holds 100 and two of her requests to send 60 to
    Bob are served concurrently.  When both have read her wallet before
    either transaction runs, both pass the funds check, both transactions
    debit unconditionally, both are answered 200, and her balance ends
    at -20 (Bob's at 120). *)
Theorem concurrent_transfers_overdraw :
  let '(pool, s) :=
    @Interleaving.interleave Ledger.strict Interleaving.reads_first
      Interleaving.two_transfers (Ledger.funded Ledger.strict) in
  pool = [Interleaving.answered (JSON StatusOK (message "Transfer successful"));
          Interleaving.answered (JSON StatusOK (message "Transfer successful"))]
  /\ first_wallet_by_user (db s) Ledger.alice = Some (Wallet.mk 1 1 (-20))
  /\ first_wallet_by_user (db s) Ledger.bob = Some (Wallet.mk 2 2 120)
  /\ ~ balances_nonneg (db s).
Proof.
  vm_compute. repeat split.
  intros Hnn. inversion Hnn as [|? ? Hneg _]; subst. now apply Hneg.
Qed.


(** * Beyond the claims: the rest of the request path *)

(** ** internal/middleware, internal/utils (JWT) and the login handler *)

(** The JWT library and the bcrypt comparison, as they answer at the time
    of the request.  [GenerateJWT userID secret] and [ParseJWT token secret]
    are [utils.GenerateJWT] and [utils.ParseJWT] (the claims carry the user
    identifier); [CompareHashAndPassword hash password] is [true] when
    bcrypt returns no error. *)
Class Auth := {
  GenerateJWT : N -> string -> option string;
  ParseJWT : string -> string -> option N;
  CompareHashAndPassword : string -> string -> bool
}.

Definition StatusForbidden : Z := 403.

(** [strings.TrimPrefix s prefix] when [s] starts with [prefix]. *)
Fixpoint strip_prefix (s prefix : string) {struct prefix} : option string :=
  match prefix with
  | EmptyString => Some s
  | String c prefix' =>
      match s with
      | EmptyString => None
      | String d s' => if Ascii.eqb c d then strip_prefix s' prefix' else None
      end
  end.

Definition HasPrefix (s prefix : string) : bool :=
  match strip_prefix s prefix with
  | Some _ => true
  | None => false
  end.

Definition TrimPrefix (s prefix : string) : string :=
  match strip_prefix s prefix with
  | Some rest => rest
  | None => s
  end.

(** [db.First(&user, userID)]: the row with that primary key. *)
Definition first_user_by_id (d : DB) (uid : N) : option User.t :=
  List.find (fun u => N.eqb (User.ID u) uid) (users d).

Record LoginRequest := mkLoginRequest {
  LoginUsername : string;
  LoginPassword : string
}.

Definition bind_login (req : LoginRequest) : bool :=
  negb (String.eqb (LoginUsername req) "")
  && negb (String.eqb (LoginPassword req) "").

(** What [LoginHandler] sends: an [AuthResponse] with the token, or an
    error body. *)
Inductive LoginResponse :=
| auth_response (code : Z) (token : string)
| auth_error (resp : Response).

Section auth.
Context `{Env} `{Auth}.

(** [JWTAuthMiddleware(secret)]: the response it aborts with, or the user
    identifier it stores in the context before [c.Next()]. *)
Definition JWTAuthMiddleware (secret authHeader : string) : Response + N :=
  if String.eqb authHeader "" || negb (HasPrefix authHeader "Bearer ")
  then inl (JSON StatusUnauthorized
              (error "Missing or invalid Authorization header"))
  else
    let tokenStr := TrimPrefix authHeader "Bearer " in
    match ParseJWT tokenStr secret with
    | None => inl (JSON StatusUnauthorized (error "Invalid or expired token"))
    | Some userID => inr userID
    end.

(** [AdminOnlyMiddleware(db)]: the response it aborts with, or [None] when
    it calls [c.Next()]. *)
Definition AdminOnlyMiddleware (ctxUserID : option N) (s : State)
    : option Response :=
  match ctxUserID with
  | None => Some (JSON StatusUnauthorized (error "Unauthorized"))
  | Some userID =>
      match first_user_by_id (db s) userID with
      | None => Some (JSON StatusForbidden (error "Admin access required"))
      | Some user =>
          if negb (String.eqb (User.Role user) "admin")
          then Some (JSON StatusForbidden (error "Admin access required"))
          else None
      end
  end.

(** [LoginHandler(db, jwtSecret)]; it reads the store and writes nothing.
    [strings.ToLower] is modelled on ASCII names. *)
Definition LoginHandler (jwtSecret : string) (req : LoginRequest) (s : State)
    : LoginResponse :=
  if negb (bind_login req)
  then auth_error (JSON StatusBadRequest (error "Invalid request"))
  else
    match first_user_by_username (db s) (ToLower (LoginUsername req)) with
    | None => auth_error (JSON StatusUnauthorized (error "Invalid credentials"))
    | Some user =>
        if negb (CompareHashAndPassword (User.Password user) (LoginPassword req))
        then auth_error (JSON StatusUnauthorized (error "Invalid credentials"))
        else
          match GenerateJWT (User.ID user) jwtSecret with
          | None =>
              auth_error (JSON StatusInternalServerError
                            (error "Failed to generate token"))
          | Some token => auth_response StatusOK token
          end
    end.

(** ** cmd/server: the routes *)

(** The calls of the [/wallet] group, before the middleware has named the
    caller. *)
Inductive WalletCall :=
| post_wallet
| get_wallet
| post_deposit (now : Z) (req : DepositRequest)
| post_transfer (now : Z) (req : TransferRequest)
| get_transactions (page page_size : string).

Definition dispatch (ctxUserID : option N) (call : WalletCall) : Request :=
  match call with
  | post_wallet => CreateWallet ctxUserID
  | get_wallet => GetWallet ctxUserID
  | post_deposit now req => Deposit now ctxUserID req
  | post_transfer now req => Transfer now ctxUserID req
  | get_transactions p ps => GetTransactionHistory ctxUserID p ps
  end.

(** A request to the [/wallet] group: the JWT middleware, then the
    handler. *)
Definition wallet_route (secret authHeader : string) (call : WalletCall)
    (s : State) : Response * State :=
  match JWTAuthMiddleware secret authHeader with
  | inl resp => (resp, s)
  | inr userID => handle (dispatch (Some userID) call) s
  end.

(** A request to the [/admin] group, up to its handler: the response of the
    middleware that aborts, or [None] when the request reaches the
    handler. *)
Definition admin_gate (secret authHeader : string) (s : State)
    : option Response :=
  match JWTAuthMiddleware secret authHeader with
  | inl resp => Some resp
  | inr userID => AdminOnlyMiddleware (Some userID) s
  end.
End auth.

(** ** Refused requests *)

(** The rows of the three tables, without the AUTO_INCREMENT counters. *)
Definition same_rows (d d' : DB) : Prop :=
  users d' = users d
  /\ wallets d' = wallets d
  /\ transactions d' = transactions d.

(** X1. A request that a handler refuses with a 4xx answer (401, 400 or
    404) leaves the rows of the three tables and the cache as they were. *)
Theorem refused_request_changes_nothing `{Env} (r : Request) (s s' : State)
    (resp : Response) :
  handle r s = (resp, s') ->
  400 <= status resp < 500 ->
  same_rows (db s) (db s') /\ rdb s' = rdb s.
Proof.
  intros Hrun H4xx.
  assert (Hok : status resp <> StatusOK) by (unfold StatusOK; lia).
  assert (Hcreated : status resp <> StatusCreated) by (unfold StatusCreated; lia).
  assert (Hsame : forall s0 : State, same_rows (db s0) (db s0) /\ rdb s0 = rdb s0)
    by (unfold same_rows; tauto).
  destruct r as [req | u | now u req | now u req | u | u p ps]; cbn [handle] in Hrun.
  - revert Hrun. unfold RegisterHandler.
    destruct (negb (bind_register req)); [now intros [= _ <-]|].
    destruct (negb (isValidUsername _)); [now intros [= _ <-]|].
    destruct (negb (isValidPassword _)); [now intros [= _ <-]|].
    destruct (create_user _ _ _); [|now intros [= _ <-]].
    intros [= <- _]. now contradiction Hcreated.
  - revert Hrun. unfold CreateWalletHandler.
    destruct u as [userID|]; [|now intros [= _ <-]].
    destruct (first_wallet_by_user _ _); [now intros [= _ <-]|].
    destruct (create_wallet _ _) as [[w d]|]; [|now intros [= _ <-]].
    intros [= <- _]. now contradiction Hcreated.
  - apply DepositHandler_inv in Hrun.
    destruct Hrun as [[-> _] | (u1 & w & _ & _ & _ & -> & _)];
      [apply Hsame | now contradiction Hok].
  - apply TransferHandler_inv in Hrun.
    destruct Hrun as [[-> _] | (A & toUser & fw & tw & _ & _ & -> & _)];
      [apply Hsame | now contradiction Hok].
  - revert Hrun. unfold GetWalletHandler.
    destruct u as [userID|]; [|now intros [= _ <-]].
    destruct (GetCache_wallet _ _); [now intros [= _ <-]|].
    destruct (first_wallet_by_user _ _); [|now intros [= _ <-]].
    intros [= <- _]. now contradiction Hok.
  - revert Hrun. unfold GetTransactionHistoryHandler.
    destruct u as [userID|]; [|now intros [= _ <-]].
    destruct (first_wallet_by_user _ _); [|now intros [= _ <-]].
    destruct (GetCache_history _ _); [now intros [= _ <-]|].
    intros [= <- _]. now contradiction Hok.
Qed.

(** Bob opens a second wallet. *)
Lemma refused_request_changes_nothing_witness :
  same_rows (db (Ledger.opened Ledger.strict))
    (db (snd (@handle Ledger.strict (CreateWallet (Some Ledger.bob))
                (Ledger.opened Ledger.strict))))
  /\ rdb (snd (@handle Ledger.strict (CreateWallet (Some Ledger.bob))
                 (Ledger.opened Ledger.strict)))
     = rdb (Ledger.opened Ledger.strict).
Proof.
  apply (@refused_request_changes_nothing Ledger.strict
           (CreateWallet (Some Ledger.bob)) (Ledger.opened Ledger.strict) _
           (JSON StatusBadRequest (error "Wallet already exists"))).
  - vm_compute. reflexivity.
  - vm_compute. split; [discriminate | reflexivity].
Defined.

(** X2. A transfer addressed to the caller's own user name is refused with
    400 "Cannot transfer to yourself", whatever the amount and the balance,
    and before any wallet is looked at. *)
Theorem transfer_to_self_refused `{Env} (now : Z) (A : N) (req : TransferRequest)
    (s : State) (toUser : User.t) :
  ToUsername req <> "" ->
  0 < Amount req ->
  first_user_by_username (db s) (ToUsername req) = Some toUser ->
  User.ID toUser = A ->
  TransferHandler now (Some A) req s
  = (JSON StatusBadRequest (error "Cannot transfer to yourself"), s).
Proof.
  intros Hname Hamt Hu Hid. unfold TransferHandler, bind_transfer.
  apply String.eqb_neq in Hname. rewrite Hname.
  replace (0 <? Amount req) with true by lia.
  replace (Amount req <=? 0) with false by lia. simpl.
  rewrite Hu. apply N.eqb_eq in Hid. now rewrite Hid.
Qed.

(** Bob, who has no funds at all, names himself. *)
Lemma transfer_to_self_refused_witness :
  @TransferHandler Ledger.strict 2000 (Some Ledger.bob)
    (mkTransferRequest "bob" 1000) (Ledger.funded Ledger.strict)
  = (JSON StatusBadRequest (error "Cannot transfer to yourself"),
     Ledger.funded Ledger.strict).
Proof.
  apply (@transfer_to_self_refused Ledger.strict 2000 Ledger.bob
           (mkTransferRequest "bob" 1000) (Ledger.funded Ledger.strict)
           (User.mk 2 "bob" (MySQL.salted "batterystaple") "user")).
  - discriminate.
  - simpl. lia.
  - vm_compute. reflexivity.
  - reflexivity.
Defined.

(** ** Reading a wallet *)

Lemma first_wallet_snoc (ws : list Wallet.t) (w : Wallet.t) (uid : N) :
  List.find (fun w0 => N.eqb (Wallet.UserID w0) uid) ws = None ->
  Wallet.UserID w = uid ->
  List.find (fun w0 => N.eqb (Wallet.UserID w0) uid) (ws ++ [w]) = Some w.
Proof.
  intros Hnone Hu. induction ws as [|x ws IH]; simpl in *.
  - apply N.eqb_eq in Hu. now rewrite Hu.
  - destruct (N.eqb (Wallet.UserID x) uid); [discriminate | now apply IH].
Qed.

(** X3. A wallet that has just been created is read back from the store
    with balance 0: the 201 answer and the following read show the same
    wallet, and the read is not served from the cache, whatever the cache
    held before. *)
Theorem new_wallet_reads_zero `{Env} (u : N) (s s' : State) (resp : Response) :
  CreateWalletHandler (Some u) s = (resp, s') ->
  status resp = StatusCreated ->
  exists w,
    body resp = wallet_created w
    /\ Wallet.UserID w = u
    /\ Wallet.Balance w = 0
    /\ fst (GetWalletHandler (Some u) s') = JSON StatusOK (wallet_info w false).
Proof.
  unfold CreateWalletHandler.
  destruct (first_wallet_by_user (db s) u) as [w0|] eqn:Enone.
  { intros [= <- _]. discriminate. }
  unfold create_wallet. destruct (_ || _).
  { intros [= <- _]. discriminate. }
  intros [= <- <-] _. eexists. repeat split.
  rewrite (GetWalletHandler_miss u _ (Wallet.mk (wallets_seq (db s)) u 0)).
  - reflexivity.
  - apply DeleteCache_same.
  - unfold first_wallet_by_user. simpl. now apply first_wallet_snoc.
Qed.

Lemma new_wallet_reads_zero_witness :
  exists w,
    body (JSON StatusCreated (wallet_created (Wallet.mk 1 1 0))) = wallet_created w
    /\ Wallet.UserID w = Ledger.alice
    /\ Wallet.Balance w = 0
    /\ fst (GetWalletHandler (Some Ledger.alice)
              (snd (@run Ledger.strict
                      [Register (mkRegisterRequest "Alice" "correcthorse");
                       CreateWallet (Some Ledger.alice)] empty_state)))
       = JSON StatusOK (wallet_info w false).
Proof.
  apply (@new_wallet_reads_zero Ledger.strict Ledger.alice
           (snd (@run Ledger.strict
                   [Register (mkRegisterRequest "Alice" "correcthorse")]
                   empty_state))).
  - vm_compute. reflexivity.
  - reflexivity.
Defined.

(** ** What a transfer and a deposit do to the balances *)

(** The integers of magnitude up to [float64_exact] are [float64] values,
    and a sum or difference of two of them that stays within it is
    computed exactly: there the integer arithmetic of [update_balance] is
    the arithmetic of the source's [float64] and of MySQL's DOUBLE. *)
Definition float64_exact : Z := 2 ^ 53.

(** The amount a request asks to move. *)
Definition asked (r : Request) : Z :=
  match r with
  | Deposit _ _ req => DepositAmount req
  | Transfer _ _ req => Amount req
  | _ => 0
  end.

(** The sum of all balances. *)
Definition total_balance (d : DB) : Z :=
  List.fold_right Z.add 0 (List.map Wallet.Balance (wallets d)).

(** What a request adds to the ledger from outside: the amount of a served
    deposit. *)
Definition credited (r : Request) (resp : Response) : Z :=
  match r with
  | Deposit _ _ req => if status resp =? StatusOK then DepositAmount req else 0
  | _ => 0
  end.

Fixpoint credited_all (rs : list Request) (resps : list Response) : Z :=
  match rs, resps with
  | r :: rs', resp :: resps' => credited r resp + credited_all rs' resps'
  | _, _ => 0
  end.

Section balance_facts.
Context `{Env}.

Lemma sum_snoc (l : list Z) (z : Z) :
  List.fold_right Z.add 0 (l ++ [z]) = List.fold_right Z.add 0 l + z.
Proof. induction l as [|x l IH]; simpl; lia. Qed.

Lemma map_bump_absent wid delta (ws : list Wallet.t) :
  ~ In wid (List.map Wallet.ID ws) -> List.map (bump wid delta) ws = ws.
Proof.
  induction ws as [|x ws IH]; simpl; [reflexivity|]. intros Hnot.
  rewrite bump_other by tauto. f_equal. apply IH. tauto.
Qed.

Lemma sum_bump (ws : list Wallet.t) (w : Wallet.t) (delta : Z) :
  List.NoDup (List.map Wallet.ID ws) -> In w ws ->
  List.fold_right Z.add 0 (List.map Wallet.Balance (List.map (bump (Wallet.ID w) delta) ws))
  = List.fold_right Z.add 0 (List.map Wallet.Balance ws) + delta.
Proof.
  induction ws as [|x ws IH]; simpl; [tauto|]. intros Hnd Hin.
  apply List.NoDup_cons_iff in Hnd. destruct Hnd as [Hx Hnd].
  destruct Hin as [-> | Hin].
  - rewrite bump_same, map_bump_absent by exact Hx. simpl. lia.
  - rewrite bump_other.
    + rewrite IH by assumption. lia.
    + intros Heq. apply Hx. rewrite Heq. now apply List.in_map.
Qed.

Lemma total_balance_update_balance d w delta :
  primary_key d -> In w (wallets d) ->
  total_balance (update_balance (Wallet.ID w) delta d) = total_balance d + delta.
Proof.
  intros [Hnd _] Hin. unfold total_balance. rewrite wallets_update_balance.
  now apply sum_bump.
Qed.

Lemma In_update_balance d wid delta w :
  In w (wallets d) -> In (bump wid delta w) (wallets (update_balance wid delta d)).
Proof. intros Hin. rewrite wallets_update_balance. now apply List.in_map. Qed.

Lemma handle_total_balance r s :
  primary_key (db s) ->
  total_balance (db (snd (handle r s)))
  = total_balance (db s) + credited r (fst (handle r s)).
Proof.
  intros Hpk. destruct r as [req | u | now u req | now u req | u | u p ps];
    cbn [handle credited].
  - unfold RegisterHandler.
    destruct (negb (bind_register req)); [simpl; lia|].
    destruct (negb (isValidUsername _)); [simpl; lia|].
    destruct (negb (isValidPassword _)); [simpl; lia|].
    unfold create_user. destruct (List.existsb _ _); simpl; unfold total_balance; simpl; lia.
  - unfold CreateWalletHandler. destruct u as [userID|]; [|simpl; lia].
    destruct (first_wallet_by_user _ _); [simpl; lia|].
    unfold create_wallet. destruct (_ || _); [simpl; lia|].
    unfold total_balance. simpl. rewrite List.map_app. simpl.
    rewrite sum_snoc. lia.
  - destruct (DepositHandler now u req s) as [resp s'] eqn:E.
    apply DepositHandler_inv in E.
    destruct E as [[-> Hne] | (userID & w & _ & _ & Hw & -> & ->)]; simpl.
    + apply Z.eqb_neq in Hne. rewrite Hne. lia.
    + unfold deposit_tx. apply first_wallet_In in Hw.
      change (total_balance (update_balance (Wallet.ID w) (DepositAmount req) (db s))
              = total_balance (db s) + DepositAmount req).
      apply total_balance_update_balance; tauto.
  - destruct (TransferHandler now u req s) as [resp s'] eqn:E.
    apply TransferHandler_inv in E.
    destruct E as [[-> _] | (A & toUser & fw & tw & _ & Hs & _ & ->)]; simpl; [lia|].
    destruct Hs as [_ _ _ Hf Ht _]. apply first_wallet_In in Hf, Ht.
    unfold transfer_tx.
    change (total_balance
              (update_balance (Wallet.ID tw) (Amount req)
                 (update_balance (Wallet.ID fw) (- Amount req) (db s)))
            = total_balance (db s) + 0).
    rewrite <- (bump_ID (Wallet.ID fw) (- Amount req) tw).
    rewrite total_balance_update_balance.
    + rewrite total_balance_update_balance by tauto. lia.
    + now apply primary_key_update_balance.
    + apply In_update_balance. tauto.
  - rewrite GetWalletHandler_db. lia.
  - rewrite GetTransactionHistoryHandler_db. lia.
Qed.
End balance_facts.

(** X5. Along every sequential execution that starts without a negative
    balance, whose requests carry amounts of magnitude at most 2^53 and in
    which the sum of all balances stays at most 2^53, that sum grows by the
    amounts of the served deposits and by nothing else: transfers, wallet
    creations, registrations and reads leave it as it is. *)
Theorem total_balance_is_the_deposits `{Env} (rs : list Request) (s : State) :
  primary_key (db s) ->
  balances_nonneg (db s) ->
  List.Forall (fun r => Z.abs (asked r) <= float64_exact) rs ->
  total_balance (db s) + credited_all rs (fst (run rs s)) <= float64_exact ->
  total_balance (db (snd (run rs s)))
  = total_balance (db s) + credited_all rs (fst (run rs s)).
Proof.
  intros Hpk _ _ _. revert s Hpk. induction rs as [|r rs IH]; intros s Hpk.
  - simpl. lia.
  - rewrite run_cons. cbn [fst snd credited_all].
    rewrite IH by now apply handle_primary_key.
    rewrite handle_total_balance by exact Hpk. lia.
Qed.

(** Alice sends 60 twice (the second time in vain), Bob deposits 5. *)
Lemma total_balance_is_the_deposits_witness :
  total_balance
    (db (snd (@run Ledger.strict
                [Transfer 2000 (Some Ledger.alice) (mkTransferRequest "bob" 60);
                 Transfer 2001 (Some Ledger.alice) (mkTransferRequest "bob" 60);
                 Deposit 2002 (Some Ledger.bob) (mkDepositRequest 5)]
                (Ledger.funded Ledger.strict))))
  = total_balance (db (Ledger.funded Ledger.strict))
    + credited_all
        [Transfer 2000 (Some Ledger.alice) (mkTransferRequest "bob" 60);
         Transfer 2001 (Some Ledger.alice) (mkTransferRequest "bob" 60);
         Deposit 2002 (Some Ledger.bob) (mkDepositRequest 5)]
        (fst (@run Ledger.strict
                [Transfer 2000 (Some Ledger.alice) (mkTransferRequest "bob" 60);
                 Transfer 2001 (Some Ledger.alice) (mkTransferRequest "bob" 60);
                 Deposit 2002 (Some Ledger.bob) (mkDepositRequest 5)]
                (Ledger.funded Ledger.strict))).
Proof.
  apply (@total_balance_is_the_deposits Ledger.strict).
  - split.
    + vm_compute. repeat constructor; simpl; intuition discriminate.
    + vm_compute. repeat constructor.
  - repeat constructor; vm_compute; discriminate.
  - repeat constructor; vm_compute; discriminate.
  - vm_compute. discriminate.
Defined.

(** X6. Where no balance is more than 2^53 away from zero after the amount
    is added to its magnitude, a served transfer takes the amount from the
    sender's balance, adds it to the recipient's, and leaves the wallet of
    every other user as it was. *)
Theorem transfer_moves_amount `{Env} (now : Z) (A : N) (req : TransferRequest)
    (s s' : State) (resp : Response) :
  primary_key (db s) ->
  List.Forall
    (fun w => Z.abs (Wallet.Balance w) + Amount req <= float64_exact)
    (wallets (db s)) ->
  TransferHandler now (Some A) req s = (resp, s') ->
  status resp = StatusOK ->
  exists toUser fromWallet toWallet,
    first_user_by_username (db s) (ToUsername req) = Some toUser
    /\ first_wallet_by_user (db s) A = Some fromWallet
    /\ first_wallet_by_user (db s) (User.ID toUser) = Some toWallet
    /\ first_wallet_by_user (db s') A
       = Some (Wallet.with_balance fromWallet
                 (Wallet.Balance fromWallet - Amount req))
    /\ first_wallet_by_user (db s') (User.ID toUser)
       = Some (Wallet.with_balance toWallet
                 (Wallet.Balance toWallet + Amount req))
    /\ forall v w, v <> A -> v <> User.ID toUser ->
         first_wallet_by_user (db s) v = Some w ->
         first_wallet_by_user (db s') v = Some w.
Proof.
  intros Hpk _ Hrun Hok. apply TransferHandler_inv in Hrun.
  destruct Hrun as [[_ Hne] | (A' & toUser & fw & tw & [= <-] & Hs & _ & ->)];
    [contradiction|].
  destruct Hs as [Hamt Hu Hd Hf Ht Hfunds].
  exists toUser, fw, tw. do 3 (split; [assumption|]).
  assert (Hother : forall v w v' w',
            first_wallet_by_user (db s) v = Some w ->
            first_wallet_by_user (db s) v' = Some w' ->
            v <> v' -> Wallet.ID w <> Wallet.ID w').
  { intros v w v' w' Hv Hv' Hne Hid. apply first_wallet_In in Hv, Hv'.
    destruct Hv as [Hin Huv], Hv' as [Hin' Huv'], Hpk as [Hnd _].
    apply Hne. rewrite <- Huv, <- Huv'. f_equal.
    now apply (unique_ID (wallets (db s))). }
  unfold transfer_result, transfer_tx. cbn [db].
  repeat split.
  - rewrite first_wallet_create_transaction, !first_wallet_update_balance, Hf.
    simpl. rewrite bump_same. rewrite bump_other.
    + now rewrite Z.add_opp_r.
    + simpl. apply (Hother A fw (User.ID toUser) tw); auto.
  - rewrite first_wallet_create_transaction, !first_wallet_update_balance, Ht.
    simpl. rewrite (bump_other (Wallet.ID fw)).
    + now rewrite bump_same.
    + apply (Hother (User.ID toUser) tw A fw); auto.
  - intros v w Hva Hvt Hv.
    rewrite first_wallet_create_transaction, !first_wallet_update_balance, Hv.
    simpl. rewrite (bump_other (Wallet.ID fw)).
    + rewrite bump_other; [reflexivity|].
      apply (Hother v w (User.ID toUser) tw); auto.
    + apply (Hother v w A fw); auto.
Qed.

(** Alice holds 100 and sends Bob 30. *)
Lemma transfer_moves_amount_witness :
  exists toUser fromWallet toWallet,
    @first_user_by_username Ledger.strict (db (Ledger.funded Ledger.strict)) "bob"
    = Some toUser
    /\ first_wallet_by_user (db (Ledger.funded Ledger.strict)) Ledger.alice
       = Some fromWallet
    /\ first_wallet_by_user (db (Ledger.funded Ledger.strict)) (User.ID toUser)
       = Some toWallet
    /\ first_wallet_by_user
         (db (snd (@TransferHandler Ledger.strict 2000 (Some Ledger.alice)
                     (mkTransferRequest "bob" 30) (Ledger.funded Ledger.strict))))
         Ledger.alice
       = Some (Wallet.with_balance fromWallet (Wallet.Balance fromWallet - 30))
    /\ first_wallet_by_user
         (db (snd (@TransferHandler Ledger.strict 2000 (Some Ledger.alice)
                     (mkTransferRequest "bob" 30) (Ledger.funded Ledger.strict))))
         (User.ID toUser)
       = Some (Wallet.with_balance toWallet (Wallet.Balance toWallet + 30))
    /\ forall v w, v <> Ledger.alice -> v <> User.ID toUser ->
         first_wallet_by_user (db (Ledger.funded Ledger.strict)) v = Some w ->
         first_wallet_by_user
           (db (snd (@TransferHandler Ledger.strict 2000 (Some Ledger.alice)
                       (mkTransferRequest "bob" 30) (Ledger.funded Ledger.strict))))
           v
         = Some w.
Proof.
  apply (@transfer_moves_amount Ledger.strict 2000 Ledger.alice
           (mkTransferRequest "bob" 30) (Ledger.funded Ledger.strict) _
           (JSON StatusOK (message "Transfer successful"))).
  - split.
    + vm_compute. repeat constructor; simpl; intuition discriminate.
    + vm_compute. repeat constructor.
  - repeat constructor; vm_compute; discriminate.
  - vm_compute. reflexivity.
  - reflexivity.
Defined.

(** ** Invariants of the tables *)

(** The unique index on [wallets.user_id]. *)
Definition one_wallet_per_user (d : DB) : Prop :=
  List.NoDup (List.map Wallet.UserID (wallets d)).

(** Identifiers in increasing order, all below the AUTO_INCREMENT counter. *)
Definition increasing_below (ids : list N) (next : N) : Prop :=
  StronglySorted N.lt ids /\ List.Forall (fun i => (i < next)%N) ids.

Definition key_order (d : DB) : Prop :=
  increasing_below (List.map User.ID (users d)) (users_seq d)
  /\ increasing_below (List.map Wallet.ID (wallets d)) (wallets_seq d)
  /\ increasing_below (List.map Transaction.ID (transactions d)) (transactions_seq d).

Section table_facts.
Context `{Env}.

Lemma existsb_false_not_In (ws : list Wallet.t) (uid : N) :
  List.existsb (fun w => N.eqb (Wallet.UserID w) uid) ws = false ->
  ~ In uid (List.map Wallet.UserID ws).
Proof.
  induction ws as [|w ws IH]; simpl; [tauto|].
  intros Hex. apply orb_false_iff in Hex. destruct Hex as [Hw Hws].
  apply N.eqb_neq in Hw. intros [Heq | Hin]; [contradiction | now apply IH].
Qed.

Lemma map_UserID_bump wid delta (ws : list Wallet.t) :
  List.map Wallet.UserID (List.map (bump wid delta) ws) = List.map Wallet.UserID ws.
Proof.
  rewrite List.map_map. apply List.map_ext. intros w. apply bump_UserID.
Qed.

Lemma map_ID_bump wid delta (ws : list Wallet.t) :
  List.map Wallet.ID (List.map (bump wid delta) ws) = List.map Wallet.ID ws.
Proof.
  rewrite List.map_map. apply List.map_ext. intros w. apply bump_ID.
Qed.

Lemma wallets_deposit_tx now w amount d :
  wallets (deposit_tx now w amount d)
  = List.map (bump (Wallet.ID w) amount) (wallets d).
Proof. reflexivity. Qed.

Lemma wallets_transfer_tx now fw tw amount d :
  wallets (transfer_tx now fw tw amount d)
  = List.map (bump (Wallet.ID tw) amount)
      (List.map (bump (Wallet.ID fw) (- amount)) (wallets d)).
Proof. reflexivity. Qed.

Lemma handle_one_wallet_per_user r s :
  one_wallet_per_user (db s) -> one_wallet_per_user (db (snd (handle r s))).
Proof.
  intros Hone. destruct r as [req | u | now u req | now u req | u | u p ps];
    cbn [handle].
  - unfold RegisterHandler.
    destruct (negb (bind_register req)); [exact Hone|].
    destruct (negb (isValidUsername _)); [exact Hone|].
    destruct (negb (isValidPassword _)); [exact Hone|].
    unfold create_user. destruct (List.existsb _ _); exact Hone.
  - unfold CreateWalletHandler. destruct u as [userID|]; [|exact Hone].
    destruct (first_wallet_by_user _ _); [exact Hone|].
    unfold create_wallet.
    destruct (List.existsb (fun w => N.eqb (Wallet.UserID w) userID) (wallets (db s)))
      eqn:Eex; [exact Hone|].
    destruct (negb _); [exact Hone|].
    unfold one_wallet_per_user. simpl. rewrite List.map_app. simpl.
    apply List.NoDup_app.
    + exact Hone.
    + constructor; [intros [] | constructor].
    + intros i Hi [<- | []]. now apply (existsb_false_not_In _ _ Eex).
  - destruct (DepositHandler now u req s) as [resp s'] eqn:E.
    apply DepositHandler_inv in E.
    destruct E as [[-> _] | (userID & w & _ & _ & _ & _ & ->)]; [exact Hone|].
    unfold one_wallet_per_user, deposit_result. cbn [db snd].
    now rewrite wallets_deposit_tx, map_UserID_bump.
  - destruct (TransferHandler now u req s) as [resp s'] eqn:E.
    apply TransferHandler_inv in E.
    destruct E as [[-> _] | (A & toUser & fw & tw & _ & _ & _ & ->)]; [exact Hone|].
    unfold one_wallet_per_user, transfer_result. cbn [db snd].
    now rewrite wallets_transfer_tx, !map_UserID_bump.
  - unfold one_wallet_per_user. now rewrite GetWalletHandler_db.
  - unfold one_wallet_per_user. now rewrite GetTransactionHistoryHandler_db.
Qed.

Lemma increasing_below_snoc (ids : list N) (next : N) :
  increasing_below ids next -> increasing_below (ids ++ [next]) (N.succ next).
Proof.
  intros [Hs Hlt]. split.
  - induction ids as [|i ids IH]; simpl.
    + repeat constructor.
    + inversion Hs as [|? ? Hs' Hi]; subst.
      inversion Hlt as [|? ? Hi' Hlt']; subst.
      constructor; [now apply IH|].
      apply List.Forall_app. split; [exact Hi|]. now repeat constructor.
  - apply List.Forall_app. split.
    + eapply List.Forall_impl; [|exact Hlt]. intros i Hi. simpl in Hi. lia.
    + repeat constructor. lia.
Qed.

Lemma handle_key_order r s : key_order (db s) -> key_order (db (snd (handle r s))).
Proof.
  intros Hk. pose proof Hk as (Hu & Hw & Ht).
  destruct r as [req | u | now u req | now u req | u | u p ps]; cbn [handle].
  - unfold RegisterHandler.
    destruct (negb (bind_register req)); [exact Hk|].
    destruct (negb (isValidUsername _)); [exact Hk|].
    destruct (negb (isValidPassword _)); [exact Hk|].
    unfold create_user. destruct (List.existsb _ _); [exact Hk|].
    split; [|now split]. simpl. rewrite List.map_app. simpl.
    now apply increasing_below_snoc.
  - unfold CreateWalletHandler. destruct u as [userID|]; [|exact Hk].
    destruct (first_wallet_by_user _ _); [exact Hk|].
    unfold create_wallet. destruct (_ || _); [exact Hk|].
    split; [exact Hu|]. split; [|exact Ht]. simpl. rewrite List.map_app. simpl.
    now apply increasing_below_snoc.
  - destruct (DepositHandler now u req s) as [resp s'] eqn:E.
    apply DepositHandler_inv in E.
    destruct E as [[-> _] | (userID & w & _ & _ & _ & _ & ->)]; [exact Hk|].
    unfold key_order, deposit_result. cbn [db snd].
    rewrite wallets_deposit_tx, map_ID_bump.
    split; [exact Hu|]. split; [exact Hw|].
    unfold deposit_tx, create_transaction. cbn [transactions transactions_seq].
    rewrite List.map_app. now apply increasing_below_snoc.
  - destruct (TransferHandler now u req s) as [resp s'] eqn:E.
    apply TransferHandler_inv in E.
    destruct E as [[-> _] | (A & toUser & fw & tw & _ & _ & _ & ->)];
      [exact Hk|].
    unfold key_order, transfer_result. cbn [db snd].
    rewrite wallets_transfer_tx, !map_ID_bump.
    split; [exact Hu|]. split; [exact Hw|].
    unfold transfer_tx, create_transaction. cbn [transactions transactions_seq].
    rewrite List.map_app. now apply increasing_below_snoc.
  - now rewrite GetWalletHandler_db.
  - now rewrite GetTransactionHistoryHandler_db.
Qed.

Lemma handle_transactions r s :
  transactions (db (snd (handle r s))) = transactions (db s)
  \/ exists t, transactions (db (snd (handle r s))) = transactions (db s) ++ [t].
Proof.
  destruct r as [req | u | now u req | now u req | u | u p ps]; cbn [handle].
  - left. unfold RegisterHandler.
    destruct (negb (bind_register req)); [reflexivity|].
    destruct (negb (isValidUsername _)); [reflexivity|].
    destruct (negb (isValidPassword _)); [reflexivity|].
    unfold create_user. now destruct (List.existsb _ _).
  - left. unfold CreateWalletHandler. destruct u as [userID|]; [|reflexivity].
    destruct (first_wallet_by_user _ _); [reflexivity|].
    unfold create_wallet. now destruct (_ || _).
  - destruct (DepositHandler now u req s) as [resp s'] eqn:E.
    apply DepositHandler_inv in E.
    destruct E as [[-> _] | (userID & w & _ & _ & _ & _ & ->)]; [now left|].
    right. eexists. reflexivity.
  - destruct (TransferHandler now u req s) as [resp s'] eqn:E.
    apply TransferHandler_inv in E.
    destruct E as [[-> _] | (A & toUser & fw & tw & _ & _ & _ & ->)]; [now left|].
    right. eexists. reflexivity.
  - left. now rewrite GetWalletHandler_db.
  - left. now rewrite GetTransactionHistoryHandler_db.
Qed.
End table_facts.

(** X7. No sequence of requests gives a user a second wallet: the user
    identifiers of the wallet rows stay pairwise different. *)
Theorem wallets_stay_one_per_user `{Env} (rs : list Request) (s : State) :
  one_wallet_per_user (db s) -> one_wallet_per_user (db (snd (run rs s))).
Proof.
  revert s. induction rs as [|r rs IH]; intros s Hone; [exact Hone|].
  rewrite run_cons. simpl. now apply IH, handle_one_wallet_per_user.
Qed.

Lemma wallets_stay_one_per_user_witness :
  one_wallet_per_user
    (db (snd (@run Ledger.strict
                (Ledger.opening
                 ++ [CreateWallet (Some Ledger.alice);
                     Deposit 1000 (Some Ledger.alice) (mkDepositRequest 5);
                     CreateWallet (Some Ledger.alice)])
                empty_state))).
Proof.
  apply (@wallets_stay_one_per_user Ledger.strict). constructor.
Defined.

(** X8. In each of the three tables the identifiers stay unique, in
    increasing order of insertion, and below the table's AUTO_INCREMENT
    counter, along every sequential execution. *)
Theorem tables_stay_in_key_order `{Env} (rs : list Request) (s : State) :
  key_order (db s) -> key_order (db (snd (run rs s))).
Proof.
  revert s. induction rs as [|r rs IH]; intros s Hk; [exact Hk|].
  rewrite run_cons. simpl. now apply IH, handle_key_order.
Qed.

Lemma tables_stay_in_key_order_witness :
  key_order
    (db (snd (@run Ledger.strict
                (Ledger.opening
                 ++ [Deposit 1000 (Some Ledger.alice) (mkDepositRequest 5);
                     Transfer 1001 (Some Ledger.alice) (mkTransferRequest "bob" 2)])
                empty_state))).
Proof.
  apply (@tables_stay_in_key_order Ledger.strict).
  repeat split; constructor.
Defined.

(** X9. The transaction table is append-only: after any sequence of
    requests the entries that were there are still there, unchanged and in
    place, followed by at most one new entry per request. *)
Theorem transaction_log_append_only `{Env} (rs : list Request) (s : State) :
  exists l,
    transactions (db (snd (run rs s))) = transactions (db s) ++ l
    /\ (List.length l <= List.length rs)%nat.
Proof.
  revert s. induction rs as [|r rs IH]; intros s.
  - exists []. split; [simpl; now rewrite List.app_nil_r | simpl; lia].
  - rewrite run_cons. cbn [snd]. destruct (IH (snd (handle r s))) as (l & Hl & Hlen).
    destruct (handle_transactions r s) as [Hsame | [t Ht]].
    + exists l. rewrite Hl, Hsame. split; [reflexivity | simpl; lia].
    + exists (t :: l). rewrite Hl, Ht, <- List.app_assoc. split; [reflexivity|].
      simpl. lia.
Qed.

(** ** The history after a mutation, and the history cache *)

Section history_after.
Context `{Env}.

Lemma GetCache_history_absent (c : gmap string CacheVal) (k : string) :
  c !! k = None -> GetCache_history c k = None.
Proof. unfold GetCache_history. now intros ->. Qed.

Lemma GetTransactionHistoryHandler_miss u p ps s w :
  first_wallet_by_user (db s) u = Some w ->
  rdb s !! txhistory_key u (query_page p) (query_page_size ps) = None ->
  GetTransactionHistoryHandler (Some u) p ps s
  = (JSON StatusOK
       (history (store_page (db s) (Wallet.ID w) (query_page p) (query_page_size ps))
          false),
     mkState (db s)
       (SetCache (txhistory_key u (query_page p) (query_page_size ps))
          (cv_history
             (store_page (db s) (Wallet.ID w) (query_page p) (query_page_size ps)))
          (rdb s))).
Proof.
  intros Hw Hc. unfold GetTransactionHistoryHandler.
  rewrite Hw, (GetCache_history_absent _ _ Hc). reflexivity.
Qed.

Lemma count_create_transaction now from to amount kind d wid :
  involves wid (Transaction.mk (transactions_seq d) from to amount kind now) = true ->
  count_transactions (create_transaction now from to amount kind d) wid
  = count_transactions d wid + 1.
Proof.
  intros Hinv. unfold count_transactions, create_transaction. cbn [transactions].
  rewrite List.filter_app, List.length_app. cbn [List.filter].
  rewrite Hinv. simpl. lia.
Qed.

Lemma involves_from wid i to amount kind now :
  involves wid (Transaction.mk i (Some wid) to amount kind now) = true.
Proof. unfold involves. simpl. now rewrite N.eqb_refl. Qed.

Lemma involves_to wid i from amount kind now :
  involves wid (Transaction.mk i from (Some wid) amount kind now) = true.
Proof. unfold involves. simpl. rewrite N.eqb_refl. apply orb_true_r. Qed.
End history_after.

(** X10. After a served deposit or transfer, each account it credits or
    debits sees it at once: the default history query (first page, 20 a
    page) of that user is answered from the store, not from the cache, and
    its [total] is one more than the number of the account's entries
    before. *)
Theorem served_mutation_shows_in_history `{Env} (r : Request) (s s' : State)
    (resp : Response) (u : N) :
  handle r s = (resp, s') ->
  status resp = StatusOK ->
  In u (mutated_users r s) ->
  exists w h,
    first_wallet_by_user (db s) u = Some w
    /\ fst (GetTransactionHistoryHandler (Some u) "" "" s')
       = JSON StatusOK (history h false)
    /\ hp_total h = count_transactions (db s) (Wallet.ID w) + 1.
Proof.
  intros Hrun Hok Hu.
  destruct r as [req | u0 | now u0 req | now u0 req | u0 | u0 p ps];
    simpl in Hu; try contradiction.
  - destruct u0 as [userID|]; [|contradiction].
    destruct Hu as [<- | []]. cbn [handle] in Hrun.
    apply DepositHandler_inv in Hrun.
    destruct Hrun as [[_ Hne] | (u1 & w & [= <-] & Hamt & Hw & -> & ->)];
      [contradiction|].
    exists w. eexists. split; [exact Hw|].
    rewrite (GetTransactionHistoryHandler_miss userID "" "" _
               (bump (Wallet.ID w) (DepositAmount req) w)).
    + split; [reflexivity|]. cbn [hp_total store_page fst].
      rewrite bump_ID. unfold deposit_result, deposit_tx. cbn [db].
      rewrite count_create_transaction by apply involves_to. reflexivity.
    + unfold deposit_result, deposit_tx. cbn [db].
      now rewrite first_wallet_create_transaction, first_wallet_update_balance, Hw.
    + apply (deposit_invalidate_page userID (rdb s) 1). now left.
  - destruct u0 as [fromUserID|]; [|contradiction].
    cbn [handle] in Hrun. apply TransferHandler_inv in Hrun.
    destruct Hrun as [[_ Hne] | (A & toUser & fw & tw & [= <-] & Hs & -> & ->)];
      [contradiction|].
    destruct Hs as [Hamt Huser Hd Hf Ht Hfunds]. rewrite Huser in Hu.
    destruct Hu as [<- | [<- | []]].
    + exists fw. eexists. split; [exact Hf|].
      rewrite (GetTransactionHistoryHandler_miss fromUserID "" "" _
                 (bump (Wallet.ID tw) (Amount req)
                    (bump (Wallet.ID fw) (- Amount req) fw))).
      * split; [reflexivity|]. cbn [hp_total store_page fst].
        rewrite !bump_ID. unfold transfer_result, transfer_tx. cbn [db].
        rewrite count_create_transaction by apply involves_from. reflexivity.
      * unfold transfer_result, transfer_tx. cbn [db].
        now rewrite first_wallet_create_transaction,
          !first_wallet_update_balance, Hf.
      * apply (transfer_invalidate_from_page fromUserID (User.ID toUser) (rdb s) 1).
        now left.
    + exists tw. eexists. split; [exact Ht|].
      rewrite (GetTransactionHistoryHandler_miss (User.ID toUser) "" "" _
                 (bump (Wallet.ID tw) (Amount req)
                    (bump (Wallet.ID fw) (- Amount req) tw))).
      * split; [reflexivity|]. cbn [hp_total store_page fst].
        rewrite !bump_ID. unfold transfer_result, transfer_tx. cbn [db].
        rewrite count_create_transaction by apply involves_to. reflexivity.
      * unfold transfer_result, transfer_tx. cbn [db].
        now rewrite first_wallet_create_transaction,
          !first_wallet_update_balance, Ht.
      * apply (transfer_invalidate_to_page fromUserID (User.ID toUser) (rdb s) 1).
        now left.
Qed.

(** Bob has his (empty) first page cached when Alice pays him 40. *)
Lemma served_mutation_shows_in_history_witness :
  exists w h,
    first_wallet_by_user
      (db (snd (@run Ledger.strict [GetTransactionHistory (Some Ledger.bob) "" ""]
                  (Ledger.funded Ledger.strict))))
      Ledger.bob
    = Some w
    /\ fst (@GetTransactionHistoryHandler Ledger.strict (Some Ledger.bob) "" ""
              (snd (@run Ledger.strict
                      [GetTransactionHistory (Some Ledger.bob) "" "";
                       Transfer 2000 (Some Ledger.alice) (mkTransferRequest "bob" 40)]
                      (Ledger.funded Ledger.strict))))
       = JSON StatusOK (history h false)
    /\ hp_total h
       = @count_transactions
           (db (snd (@run Ledger.strict
                       [GetTransactionHistory (Some Ledger.bob) "" ""]
                       (Ledger.funded Ledger.strict))))
           (Wallet.ID w)
         + 1.
Proof.
  apply (@served_mutation_shows_in_history Ledger.strict
           (Transfer 2000 (Some Ledger.alice) (mkTransferRequest "bob" 40))
           (snd (@run Ledger.strict [GetTransactionHistory (Some Ledger.bob) "" ""]
                   (Ledger.funded Ledger.strict)))
           _ (JSON StatusOK (message "Transfer successful"))).
  - vm_compute. reflexivity.
  - reflexivity.
  - vm_compute. right. left. reflexivity.
Defined.

(** ** Page numbers as text *)

Section numerals.
Lemma pretty_N_char_digit (d : N) :
  (d < 10)%N ->
  is_digit (pretty_N_char d) = true /\ digit_value (pretty_N_char d) = Z.of_N d.
Proof.
  intros Hd.
  assert (d = 0 \/ d = 1 \/ d = 2 \/ d = 3 \/ d = 4 \/ d = 5 \/ d = 6 \/ d = 7
          \/ d = 8 \/ d = 9)%N as Hcases by lia.
  repeat (destruct Hcases as [-> | Hcases]; [split; reflexivity|]).
  subst d. split; reflexivity.
Qed.

(** Reading the numeral of [x] in front of [s] comes to reading [s] with
    [x] in the accumulator. *)
Lemma parse_digits_pretty_N_go (x : N) (s : string) :
  parse_digits (pretty_N_go x s) 0 = parse_digits s (Z.of_N x).
Proof.
  revert s. induction (N.lt_wf_0 x) as [x _ IH]. intros s.
  destruct (N.eq_dec x 0%N) as [-> | Hx]; [now rewrite pretty_N_go_0|].
  rewrite pretty_N_go_step by lia.
  rewrite IH by (apply N.div_lt; lia). cbn [parse_digits].
  destruct (pretty_N_char_digit (x `mod` 10)) as [-> ->];
    [apply N.mod_lt; lia|].
  f_equal. rewrite (N.div_mod x 10) at 3 by lia. lia.
Qed.

Lemma Atoi_digits (s : string) (n : Z) :
  s <> "" -> parse_digits s 0 = Some n -> 0 <= n <= max_int -> Atoi s = Some n.
Proof.
  intros Hne Hparse Hn. destruct s as [|c r]; [contradiction|].
  unfold Atoi.
  assert (Hc : is_digit c = true).
  { cbn [parse_digits] in Hparse. now destruct (is_digit c). }
  assert (Hminus : Ascii.eqb c "-" = false).
  { destruct (Ascii.eqb_spec c "-"%char) as [-> |]; [discriminate Hc | reflexivity]. }
  assert (Hplus : Ascii.eqb c "+" = false).
  { destruct (Ascii.eqb_spec c "+"%char) as [-> |]; [discriminate Hc | reflexivity]. }
  rewrite Hminus, Hplus. cbn [orb]. rewrite Hparse.
  replace ((min_int <=? n) && (n <=? max_int)) with true; [reflexivity|].
  unfold min_int, max_int in *. lia.
Qed.

Lemma pretty_N_go_nonempty (x : N) : (0 < x)%N -> pretty_N_go x "" <> "".
Proof.
  intros Hx Hempty. pose proof (parse_digits_pretty_N_go x "") as Hp.
  rewrite Hempty in Hp. simpl in Hp. injection Hp as Hp. lia.
Qed.
End numerals.

(** X12. [Atoi] reads back what [Itoa] writes: for every [int] [z],
    [Atoi (Itoa z) = z] without error.  (The history handler builds its
    cache key with [Itoa] from numbers it got with [Atoi].) *)
Theorem Atoi_Itoa (z : Z) : min_int <= z <= max_int -> Atoi (Itoa z) = Some z.
Proof.
  intros Hz. unfold Itoa, pretty, pretty_Z. destruct z as [|p|p].
  - reflexivity.
  - unfold pretty, pretty_positive, pretty, pretty_N.
    destruct (decide (N.pos p = 0%N)) as [Hp|_]; [discriminate Hp|].
    apply Atoi_digits.
    + apply pretty_N_go_nonempty. lia.
    + rewrite parse_digits_pretty_N_go. reflexivity.
    + lia.
  - unfold pretty, pretty_positive, pretty, pretty_N.
    destruct (decide (N.pos p = 0%N)) as [Hp|_]; [discriminate Hp|].
    pose proof (pretty_N_go_nonempty (N.pos p) ltac:(lia)) as Hne.
    pose proof (parse_digits_pretty_N_go (N.pos p) "") as Hparse.
    cbn [parse_digits] in Hparse.
    destruct (pretty_N_go (N.pos p) "") as [|c r]; [contradiction|].
    change ("-" +:+ String c r) with (String "-"%char (String c r)).
    unfold Atoi. change (Ascii.eqb "-" "-") with true. cbn [orb].
    rewrite Hparse. cbn [Z.of_N].
    replace ((min_int <=? - Z.pos p) && (- Z.pos p <=? max_int)) with true;
      [reflexivity|].
    unfold min_int, max_int in *. lia.
Qed.

Lemma Atoi_Itoa_witness : Atoi (Itoa (-9223372036854775808)) = Some (-9223372036854775808).
Proof. apply Atoi_Itoa. unfold min_int, max_int. lia. Defined.

(** ** What a history page holds *)

Section page_facts.
Context `{Env}.

Lemma In_find_transactions d wid offset pageSize t :
  In t (find_transactions d wid offset pageSize) ->
  In t (transactions d) /\ involves wid t = true.
Proof.
  unfold find_transactions. intros Hin.
  apply In_firstn, In_skipn in Hin.
  apply (Permutation_in _ (Permutation_sym (order_created_at_desc_perm _))) in Hin.
  now apply List.filter_In in Hin.
Qed.

Lemma length_find_transactions d wid offset pageSize :
  (List.length (find_transactions d wid offset pageSize) <= Z.to_nat pageSize)%nat.
Proof. unfold find_transactions. apply List.firstn_le_length. Qed.

(** The window of width [n] that holds position [i]. *)
Lemma window_covers {A : Type} (l : list A) (n i : nat) (x : A) :
  (0 < n)%nat -> nth_error l i = Some x ->
  In x (firstn n (skipn (i / n * n) l)).
Proof.
  intros Hn Hi. apply (List.nth_error_In _ (i mod n)).
  rewrite List.nth_error_firstn.
  pose proof (Nat.mod_upper_bound i n ltac:(lia)) as Hlt.
  apply Nat.ltb_lt in Hlt. rewrite Hlt, List.nth_error_skipn.
  replace (i / n * n + i mod n)%nat with i; [exact Hi|].
  rewrite (Nat.div_mod_eq i n) at 1. lia.
Qed.

Lemma query_page_Itoa (page : Z) :
  1 <= page <= max_int -> query_page (Itoa page) = page.
Proof.
  intros Hp. unfold query_page.
  pose proof (Atoi_Itoa page ltac:(unfold min_int; lia)) as Hatoi.
  destruct (String.eqb_spec (Itoa page) "") as [Hempty|_].
  - rewrite Hempty in Hatoi. discriminate Hatoi.
  - rewrite Hatoi. now replace (0 <? page) with true by lia.
Qed.
End page_facts.

(** X13. A history page answered from the store holds entries of the
    caller's own wallet only (each is a stored entry with that wallet as
    source or destination), and never more of them than the effective page
    size, which is at most 100. *)
Theorem history_page_is_own_and_bounded `{Env} (u : N) (p ps : string) (s : State)
    (h : HistoryPage) :
  fst (GetTransactionHistoryHandler (Some u) p ps s)
  = JSON StatusOK (history h false) ->
  exists w,
    first_wallet_by_user (db s) u = Some w
    /\ (forall t, In t (hp_transactions h) ->
                  In t (transactions (db s)) /\ involves (Wallet.ID w) t = true)
    /\ Z.of_nat (List.length (hp_transactions h)) <= hp_page_size h <= 100.
Proof.
  intros Hrun. apply GetTransactionHistoryHandler_inv in Hrun.
  destruct Hrun as (w & Hw & ->). exists w. split; [exact Hw|].
  unfold store_page. cbn [hp_transactions hp_page_size]. split.
  - intros t. apply In_find_transactions.
  - pose proof (query_page_size_range ps) as Hps.
    pose proof (length_find_transactions (db s) (Wallet.ID w)
                  (wrap_int ((query_page p - 1) * query_page_size ps))
                  (query_page_size ps)) as Hlen.
    lia.
Qed.

(** Bob's history after Alice has deposited 100 and paid him 40. *)
Lemma history_page_is_own_and_bounded_witness :
  exists w,
    first_wallet_by_user
      (db (snd (@run Ledger.strict
                  [Transfer 2000 (Some Ledger.alice) (mkTransferRequest "bob" 40)]
                  (Ledger.funded Ledger.strict))))
      Ledger.bob
    = Some w
    /\ (forall t,
          In t [Transaction.mk 2 (Some 1%N) (Some 2%N) 40 "transfer" 2000] ->
          In t (transactions
                  (db (snd (@run Ledger.strict
                              [Transfer 2000 (Some Ledger.alice)
                                 (mkTransferRequest "bob" 40)]
                              (Ledger.funded Ledger.strict)))))
          /\ involves (Wallet.ID w) t = true)
    /\ Z.of_nat (List.length [Transaction.mk 2 (Some 1%N) (Some 2%N) 40 "transfer" 2000])
       <= 20 <= 100.
Proof.
  apply (@history_page_is_own_and_bounded Ledger.strict Ledger.bob "" ""
           (snd (@run Ledger.strict
                   [Transfer 2000 (Some Ledger.alice) (mkTransferRequest "bob" 40)]
                   (Ledger.funded Ledger.strict)))
           (mkPage [Transaction.mk 2 (Some 1%N) (Some 2%N) 40 "transfer" 2000]
              1 20 1 1)).
  vm_compute. reflexivity.
Defined.

(** [x] was created after [t]. *)
Definition newer_than (t x : Transaction.t) : bool :=
  Transaction.CreatedAt t <? Transaction.CreatedAt x.

Lemma Permutation_filter_length {A : Type} (f : A -> bool) (l l' : list A) :
  Permutation l l' ->
  List.length (List.filter f l) = List.length (List.filter f l').
Proof.
  induction 1 as [|x l l' _ IH|x y l|l l' l'' _ IH1 _ IH2]; simpl.
  - reflexivity.
  - destruct (f x); simpl; now rewrite IH.
  - destruct (f x), (f y); reflexivity.
  - now rewrite IH1.
Qed.

Lemma filter_newer_none (t : Transaction.t) (l : list Transaction.t) :
  (forall x, In x l -> Transaction.CreatedAt x <= Transaction.CreatedAt t) ->
  List.filter (newer_than t) l = [].
Proof.
  induction l as [|b l IH]; intros Hall; [reflexivity|].
  cbn [List.filter]. unfold newer_than at 1.
  pose proof (Hall b ltac:(now left)) as Hb.
  replace (Transaction.CreatedAt t <? Transaction.CreatedAt b) with false by lia.
  apply IH. intros x Hx. apply Hall. now right.
Qed.

(** In a list in non-increasing creation-time order, an entry that shares
    its creation time with no other stands right after the entries newer
    than it, however the others are arranged. *)
Lemma untied_position (t : Transaction.t) (l : list Transaction.t) :
  StronglySorted MySQL.created_desc l ->
  In t l ->
  (forall x, In x l ->
             Transaction.CreatedAt x = Transaction.CreatedAt t -> x = t) ->
  nth_error l (List.length (List.filter (newer_than t) l)) = Some t.
Proof.
  induction 1 as [|a r Hr IH Ha]; intros Hin Huniq; [destruct Hin|].
  rewrite List.Forall_forall in Ha. unfold MySQL.created_desc in Ha.
  cbn [List.filter]. unfold newer_than at 1.
  destruct (Transaction.CreatedAt t <? Transaction.CreatedAt a) eqn:E.
  - cbn [List.length nth_error]. apply IH.
    + destruct Hin as [-> | Hin]; [lia | exact Hin].
    + intros x Hx. apply Huniq. now right.
  - assert (Hat : a = t).
    { destruct Hin as [Hin | Hin]; [exact Hin|].
      apply Huniq; [now left|]. specialize (Ha t Hin). lia. }
    subst a. rewrite filter_newer_none; [reflexivity|].
    intros x Hx. now apply Ha.
Qed.

(** X14. Pagination loses no entry that is alone at its creation time: for
    every entry of an account whose creation time no other entry of the
    account shares, and every page size, there is one page number, between
    1 and [total_pages], under which the history handler, asked with a cold
    cache, returns the entry, however the store arranges the entries that
    tie when it answers the query. *)
Theorem untied_entry_has_its_page (d : DB) (u : N) (w : Wallet.t)
    (ps : string) (t : Transaction.t) :
  Z.of_nat (List.length (transactions d)) <= max_int - 100 ->
  first_wallet_by_user d u = Some w ->
  In t (transactions d) ->
  involves (Wallet.ID w) t = true ->
  (forall x, In x (transactions d) ->
             involves (Wallet.ID w) x = true ->
             Transaction.CreatedAt x = Transaction.CreatedAt t -> x = t) ->
  exists p : string, forall E : Env, exists h : HistoryPage,
    fst (@GetTransactionHistoryHandler E (Some u) p ps (mkState d ∅))
    = JSON StatusOK (history h false)
    /\ In t (hp_transactions h)
    /\ 1 <= hp_page h <= hp_total_pages h.
Proof.
  intros Hsize Hw Hin Hinv Huniq.
  pose proof (query_page_size_range ps) as Hps.
  set (n := Z.to_nat (query_page_size ps)).
  set (l := List.filter (involves (Wallet.ID w)) (transactions d)).
  set (i := List.length (List.filter (newer_than t) l)).
  assert (Htl : In t l) by (apply List.filter_In; now split).
  assert (Hul : forall x, In x l ->
                  Transaction.CreatedAt x = Transaction.CreatedAt t -> x = t).
  { intros x Hx. apply List.filter_In in Hx. destruct Hx as [Hx Hix].
    now apply Huniq. }
  assert (Hi : forall E : Env, nth_error (@order_created_at_desc E l) i = Some t).
  { intros E. unfold i.
    rewrite (Permutation_filter_length (newer_than t) l
               (@order_created_at_desc E l) (order_created_at_desc_perm l)).
    apply untied_position.
    - apply order_created_at_desc_sorted.
    - now apply (Permutation_in _ (order_created_at_desc_perm l)).
    - intros x Hx. apply Hul.
      now apply (Permutation_in _ (Permutation_sym (order_created_at_desc_perm l))). }
  assert (Hlen : (i < List.length l)%nat).
  { pose proof (Hi (MySQL.env MySQL.binary MySQL.by_id)) as H0.
    rewrite (Permutation_length
               (@order_created_at_desc_perm (MySQL.env MySQL.binary MySQL.by_id) l)).
    apply List.nth_error_Some. now rewrite H0. }
  pose proof (List.filter_length_le (involves (Wallet.ID w)) (transactions d)) as Hfl.
  fold l in Hfl.
  pose proof (Nat.div_mod_eq i n) as Hdm.
  pose proof (Nat.mod_upper_bound i n ltac:(lia)) as Hmod.
  set (page := Z.of_nat (i / n) + 1).
  assert (Hk : (Z.of_nat (i / n)) * query_page_size ps <= Z.of_nat i).
  { replace (query_page_size ps) with (Z.of_nat n) by (unfold n; lia). nia. }
  assert (Hpage : query_page (Itoa page) = page).
  { apply query_page_Itoa. unfold page, max_int in *. nia. }
  exists (Itoa page). intros E. eexists.
  rewrite (@GetTransactionHistoryHandler_miss E u (Itoa page) ps (mkState d ∅) w);
    [|exact Hw | apply lookup_empty].
  split; [reflexivity|]. cbn [db]. rewrite Hpage.
  unfold store_page. cbn [hp_transactions hp_page hp_total_pages]. split.
  - unfold find_transactions. fold l.
    rewrite wrap_int_small by (unfold page, min_int, max_int in *; nia).
    replace (Z.to_nat ((page - 1) * query_page_size ps)) with (i / n * n)%nat
      by (unfold page, n; nia).
    apply window_covers; [unfold n; lia | apply Hi].
  - assert (Hceil : is_ceiling
                      (Z.quot (wrap_int (count_transactions d (Wallet.ID w)
                                         + query_page_size ps - 1))
                         (query_page_size ps))
                      (count_transactions d (Wallet.ID w)) (query_page_size ps)).
    { apply total_pages_ceiling; unfold count_transactions; fold l; lia. }
    unfold is_ceiling, count_transactions in Hceil. fold l in Hceil.
    unfold count_transactions. fold l. unfold page. nia.
Qed.

(** Alice has deposited 100 and then paid Bob 10 twice within the same
    millisecond; one entry a page, her deposit is on the third page. *)
Lemma untied_entry_has_its_page_witness :
  exists p : string, forall E : Env, exists h : HistoryPage,
    fst (@GetTransactionHistoryHandler E (Some Ledger.alice) p "1"
           (mkState
              (db (snd (@run Ledger.strict
                          [Transfer 2000 (Some Ledger.alice)
                             (mkTransferRequest "bob" 10);
                           Transfer 2000 (Some Ledger.alice)
                             (mkTransferRequest "bob" 10)]
                          (Ledger.funded Ledger.strict))))
              ∅))
    = JSON StatusOK (history h false)
    /\ In (Transaction.mk 1 None (Some 1%N) 100 "deposit" 1000) (hp_transactions h)
    /\ 1 <= hp_page h <= hp_total_pages h.
Proof.
  apply (untied_entry_has_its_page
           (db (snd (@run Ledger.strict
                       [Transfer 2000 (Some Ledger.alice)
                          (mkTransferRequest "bob" 10);
                        Transfer 2000 (Some Ledger.alice)
                          (mkTransferRequest "bob" 10)]
                       (Ledger.funded Ledger.strict))))
           Ledger.alice (Wallet.mk 1 1 80)).
  - vm_compute. discriminate.
  - vm_compute. reflexivity.
  - vm_compute. left. reflexivity.
  - vm_compute. reflexivity.
  - intros x Hx _ Hc. vm_compute in Hx.
    destruct Hx as [<- | [<- | [<- | []]]];
      [reflexivity | vm_compute in Hc; discriminate Hc
       | vm_compute in Hc; discriminate Hc].
Defined.

(** ** The users table *)

Fixpoint all_lower (s : string) : bool :=
  match s with
  | EmptyString => true
  | String c r => is_lower c && all_lower r
  end.

(** A non-empty name of lower-case ASCII letters. *)
Definition lower_letters (s : string) : Prop := s <> "" /\ all_lower s = true.

Definition users_plain (d : DB) : Prop :=
  List.Forall
    (fun u => lower_letters (User.Username u) /\ User.Role u = "user")
    (users d).

Section user_facts.
Context `{Env}.

Lemma lower_ascii_alpha (c : ascii) :
  is_upper c || is_lower c = true -> is_lower (lower_ascii c) = true.
Proof. destruct c as [[] [] [] [] [] [] [] []]; vm_compute; congruence. Qed.

Lemma all_lower_ToLower (s : string) :
  all_alpha s = true -> all_lower (ToLower s) = true.
Proof.
  induction s as [|c s IH]; simpl; [reflexivity|].
  intros Ha. apply andb_true_iff in Ha. destruct Ha as [Hc Hs].
  now rewrite (lower_ascii_alpha c Hc), IH.
Qed.

Lemma ToLower_empty (s : string) : ToLower s = "" -> s = "".
Proof. destruct s; [reflexivity | discriminate]. Qed.

Lemma handle_users r s :
  users (db (snd (handle r s))) = users (db s)
  \/ exists req,
       r = Register req
       /\ isValidUsername (RegUsername req) = true
       /\ users (db (snd (handle r s)))
          = users (db s)
            ++ [User.mk (users_seq (db s)) (ToLower (RegUsername req))
                  (bcrypt (RegPassword req)) "user"].
Proof.
  destruct r as [req | u | now u req | now u req | u | u p ps]; cbn [handle].
  - unfold RegisterHandler.
    destruct (negb (bind_register req)); [now left|].
    destruct (isValidUsername (RegUsername req)) eqn:Ev; [|now left]. cbn [negb].
    destruct (negb (isValidPassword _)); [now left|].
    unfold create_user. destruct (List.existsb _ _); [now left|].
    right. exists req. now repeat split.
  - left. unfold CreateWalletHandler. destruct u as [userID|]; [|reflexivity].
    destruct (first_wallet_by_user _ _); [reflexivity|].
    unfold create_wallet. now destruct (_ || _).
  - left. destruct (DepositHandler now u req s) as [resp s'] eqn:E.
    apply DepositHandler_inv in E.
    now destruct E as [[-> _] | (userID & w & _ & _ & _ & _ & ->)].
  - left. destruct (TransferHandler now u req s) as [resp s'] eqn:E.
    apply TransferHandler_inv in E.
    now destruct E as [[-> _] | (A & toUser & fw & tw & _ & _ & _ & ->)].
  - left. now rewrite GetWalletHandler_db.
  - left. now rewrite GetTransactionHistoryHandler_db.
Qed.

(** The rows of [users] are never changed or removed. *)
Lemma run_users rs s :
  exists l, users (db (snd (run rs s))) = users (db s) ++ l.
Proof.
  revert s. induction rs as [|r rs IH]; intros s.
  - exists []. simpl. now rewrite List.app_nil_r.
  - rewrite run_cons. cbn [snd]. destruct (IH (snd (handle r s))) as [l Hl].
    destruct (handle_users r s) as [Hsame | (req & _ & _ & Hadd)].
    + exists l. now rewrite Hl, Hsame.
    + eexists. rewrite Hl, Hadd, <- List.app_assoc. reflexivity.
Qed.

Lemma handle_users_plain r s :
  users_plain (db s) -> users_plain (db (snd (handle r s))).
Proof.
  intros Hp. unfold users_plain.
  destruct (handle_users r s) as [-> | (req & _ & Hv & ->)]; [exact Hp|].
  apply List.Forall_app. split; [exact Hp|].
  constructor; [|constructor]. cbn [User.Username User.Role].
  split; [|reflexivity]. unfold isValidUsername in Hv. split.
  - intros Hempty. apply ToLower_empty in Hempty. rewrite Hempty in Hv. discriminate.
  - destruct (RegUsername req); [discriminate | now apply all_lower_ToLower].
Qed.

Lemma run_users_plain rs s :
  users_plain (db s) -> users_plain (db (snd (run rs s))).
Proof.
  revert s. induction rs as [|r rs IH]; intros s Hp; [exact Hp|].
  rewrite run_cons. simpl. now apply IH, handle_users_plain.
Qed.

Lemma existsb_app_l {A : Type} (f : A -> bool) (l1 l2 : list A) :
  List.existsb f l1 = true -> List.existsb f (l1 ++ l2) = true.
Proof. intros Hl. rewrite List.existsb_app, Hl. reflexivity. Qed.
End user_facts.

(** X15. Every user row written through the API has a non-empty name of
    lower-case ASCII letters and the role "user": from a users table of
    such rows (the empty one, say) no sequence of requests leads to any
    other kind of row. *)
Theorem users_stay_plain `{Env} (rs : list Request) (s : State) :
  users_plain (db s) -> users_plain (db (snd (run rs s))).
Proof. apply run_users_plain. Qed.

Lemma users_stay_plain_witness :
  users_plain
    (db (snd (@run Ledger.strict
                (Ledger.opening
                 ++ [Register (mkRegisterRequest "CAROL" "tr0ub4dor&3");
                     Register (mkRegisterRequest "d4ve" "tr0ub4dor&3")])
                empty_state))).
Proof. apply (@users_stay_plain Ledger.strict). constructor. Defined.

(** X16. User names are unique up to case: once a name is registered, a
    registration under any other casing of it is answered 400, at any
    later time, and leaves the rows of the tables and the cache as they
    were.  (The collation is taken
    to find a name equal to itself.) *)
Theorem registration_unique_up_to_case `{Env} (req req' : RegisterRequest)
    (s s1 : State) (resp : Response) (rs : list Request) :
  (forall a, collate a a = true) ->
  RegisterHandler req s = (resp, s1) ->
  status resp = StatusCreated ->
  ToLower (RegUsername req') = ToLower (RegUsername req) ->
  status (fst (RegisterHandler req' (snd (run rs s1)))) = StatusBadRequest
  /\ same_rows (db (snd (run rs s1)))
       (db (snd (RegisterHandler req' (snd (run rs s1)))))
  /\ rdb (snd (RegisterHandler req' (snd (run rs s1)))) = rdb (snd (run rs s1)).
Proof.
  intros Hrefl Hrun Hok Hcase.
  apply RegisterHandler_inv in Hrun; [|exact Hok].
  destruct Hrun as (_ & _ & _ & Husers).
  destruct (run_users rs s1) as [l Hl]. rewrite Husers in Hl.
  unfold RegisterHandler, same_rows.
  destruct (negb (bind_register req')); [now repeat split|].
  destruct (negb (isValidUsername _)); [now repeat split|].
  destruct (negb (isValidPassword _)); [now repeat split|].
  unfold create_user. rewrite Hl, Hcase.
  rewrite existsb_app_l; [now repeat split|].
  rewrite List.existsb_app. cbn [List.existsb User.Username].
  rewrite Hrefl. now rewrite orb_true_r.
Qed.

(** Alice is registered; "ALICE" is tried after everyone has opened a
    wallet. *)
Lemma registration_unique_up_to_case_witness :
  status (fst (@RegisterHandler Ledger.strict
                 (mkRegisterRequest "ALICE" "tr0ub4dor&3")
                 (snd (@run Ledger.strict
                         [Register (mkRegisterRequest "bob" "batterystaple");
                          CreateWallet (Some Ledger.alice)]
                         (snd (@RegisterHandler Ledger.strict
                                 (mkRegisterRequest "Alice" "correcthorse")
                                 empty_state))))))
  = StatusBadRequest
  /\ same_rows
       (db (snd (@run Ledger.strict
                   [Register (mkRegisterRequest "bob" "batterystaple");
                    CreateWallet (Some Ledger.alice)]
                   (snd (@RegisterHandler Ledger.strict
                           (mkRegisterRequest "Alice" "correcthorse")
                           empty_state)))))
       (db (snd (@RegisterHandler Ledger.strict
                   (mkRegisterRequest "ALICE" "tr0ub4dor&3")
                   (snd (@run Ledger.strict
                           [Register (mkRegisterRequest "bob" "batterystaple");
                            CreateWallet (Some Ledger.alice)]
                           (snd (@RegisterHandler Ledger.strict
                                   (mkRegisterRequest "Alice" "correcthorse")
                                   empty_state)))))))
  /\ rdb (snd (@RegisterHandler Ledger.strict
                 (mkRegisterRequest "ALICE" "tr0ub4dor&3")
                 (snd (@run Ledger.strict
                         [Register (mkRegisterRequest "bob" "batterystaple");
                          CreateWallet (Some Ledger.alice)]
                         (snd (@RegisterHandler Ledger.strict
                                 (mkRegisterRequest "Alice" "correcthorse")
                                 empty_state))))))
     = rdb (snd (@run Ledger.strict
                   [Register (mkRegisterRequest "bob" "batterystaple");
                    CreateWallet (Some Ledger.alice)]
                   (snd (@RegisterHandler Ledger.strict
                           (mkRegisterRequest "Alice" "correcthorse")
                           empty_state)))).
Proof.
  apply (@registration_unique_up_to_case Ledger.strict
           (mkRegisterRequest "Alice" "correcthorse")
           (mkRegisterRequest "ALICE" "tr0ub4dor&3") empty_state _
           (JSON StatusCreated (message "User registered successfully"))).
  - intros a. apply String.eqb_refl.
  - vm_compute. reflexivity.
  - reflexivity.
  - reflexivity.
Defined.

(** X17. The admin routes are closed to every user the API can create: in
    any state reached by requests from a users table of "user" rows, the
    admin group's middleware aborts every request, whatever its
    Authorization header, with 401 or 403, so none reaches an admin
    handler. *)
Theorem admin_routes_closed_to_api_users `{Env} `{Auth} (rs : list Request)
    (s : State) (secret authHeader : string) :
  users_plain (db s) ->
  exists resp,
    admin_gate secret authHeader (snd (run rs s)) = Some resp
    /\ (status resp = StatusUnauthorized \/ status resp = StatusForbidden).
Proof.
  intros Hp. apply (run_users_plain rs) in Hp.
  unfold admin_gate, JWTAuthMiddleware.
  destruct (_ || _); [eexists; split; [reflexivity | now left]|].
  destruct (ParseJWT _ _) as [userID|]; [|eexists; split; [reflexivity | now left]].
  unfold AdminOnlyMiddleware, first_user_by_id.
  destruct (List.find _ _) as [user|] eqn:Ef;
    [|eexists; split; [reflexivity | now right]].
  apply List.find_some in Ef. destruct Ef as [Hin _].
  unfold users_plain in Hp. rewrite List.Forall_forall in Hp.
  destruct (Hp user Hin) as [_ ->]. cbn [String.eqb negb].
  eexists. split; [reflexivity | now right].
Qed.

(** ** An [Auth] to run the examples with *)

(** Tokens are the secret, a dot and the user identifier in decimal; a
    hash matches the password it was salted from. *)
Module Tokens.
Definition sign (userID : N) (secret : string) : option string :=
  Some (secret +:+ "." +:+ Itoa (Z.of_N userID)).

Definition verify (token secret : string) : option N :=
  match strip_prefix token (secret +:+ ".") with
  | None => None
  | Some rest =>
      match Atoi rest with
      | Some z => if 0 <=? z then Some (Z.to_N z) else None
      | None => None
      end
  end.

Definition matches (hash password : string) : bool :=
  String.eqb hash (MySQL.salted password).

Definition plain : Auth :=
  {| GenerateJWT := sign; ParseJWT := verify; CompareHashAndPassword := matches |}.
End Tokens.

Lemma admin_routes_closed_to_api_users_witness :
  exists resp,
    @admin_gate Tokens.plain "s3cret" "Bearer s3cret.1"
      (snd (@run Ledger.strict Ledger.opening empty_state))
    = Some resp
    /\ (status resp = StatusUnauthorized \/ status resp = StatusForbidden).
Proof.
  apply (@admin_routes_closed_to_api_users Ledger.strict Tokens.plain
           Ledger.opening empty_state "s3cret" "Bearer s3cret.1").
  constructor.
Defined.

(** ** Logging in *)

Section login_facts.
Context `{Env} `{Auth}.

Lemma find_app_l {A : Type} (f : A -> bool) (l1 l2 : list A) (x : A) :
  List.find f l1 = Some x -> List.find f (l1 ++ l2) = Some x.
Proof.
  induction l1 as [|y l1 IH]; simpl; [discriminate|].
  destruct (f y); [trivial | exact IH].
Qed.

Lemma find_snoc_new {A : Type} (f : A -> bool) (l : list A) (x : A) :
  List.existsb f l = false -> f x = true -> List.find f (l ++ [x]) = Some x.
Proof.
  induction l as [|y l IH]; simpl; intros Hex Hx.
  - now rewrite Hx.
  - apply orb_false_iff in Hex. destruct Hex as [-> Hex]. now apply IH.
Qed.

Lemma strip_prefix_app (prefix rest : string) :
  strip_prefix (prefix +:+ rest) prefix = Some rest.
Proof.
  induction prefix as [|c prefix IH]; [reflexivity|].
  change (String c prefix +:+ rest) with (String c (prefix +:+ rest)).
  cbn [strip_prefix]. now rewrite Ascii.eqb_refl.
Qed.

Lemma JWTAuthMiddleware_bearer secret token userID :
  ParseJWT token secret = Some userID ->
  JWTAuthMiddleware secret ("Bearer " +:+ token) = inr userID.
Proof.
  intros Hparse. unfold JWTAuthMiddleware, HasPrefix, TrimPrefix.
  rewrite (strip_prefix_app "Bearer " token).
  change (String.eqb ("Bearer " +:+ token) "") with false. cbn [orb negb].
  now rewrite Hparse.
Qed.
End login_facts.

(** X18. Registration, login and the JWT middleware fit together, and
    login does not depend on the case of the name.  A user registers; at
    any later time a login with the same password and any casing of the
    name finds that user's row and answers 200 with the token
    [GenerateJWT] makes for its identifier, and a request that carries the
    token as ["Bearer <token>"] passes the middleware under that
    identifier.  (bcrypt is taken to accept the hash of the password, the
    collation to find a name equal to itself, and the JWT library to issue
    a token and parse it back.) *)
Theorem login_after_register `{Env} `{Auth} (secret : string)
    (req : RegisterRequest) (s s1 : State) (resp : Response)
    (rs : list Request) (name token : string) :
  (forall a, collate a a = true) ->
  CompareHashAndPassword (bcrypt (RegPassword req)) (RegPassword req) = true ->
  RegisterHandler req s = (resp, s1) ->
  status resp = StatusCreated ->
  ToLower name = ToLower (RegUsername req) ->
  GenerateJWT (users_seq (db s)) secret = Some token ->
  ParseJWT token secret = Some (users_seq (db s)) ->
  LoginHandler secret (mkLoginRequest name (RegPassword req)) (snd (run rs s1))
  = auth_response StatusOK token
  /\ JWTAuthMiddleware secret ("Bearer " +:+ token) = inr (users_seq (db s)).
Proof.
  intros Hrefl Hcompare Hrun Hok Hcase Hsign Hparse.
  split; [|now apply JWTAuthMiddleware_bearer].
  assert (Hfresh : List.existsb
                     (fun u => collate (User.Username u) (ToLower (RegUsername req)))
                     (users (db s)) = false).
  { revert Hrun Hok. unfold RegisterHandler.
    destruct (negb (bind_register req)); [intros [= <- _]; discriminate|].
    destruct (negb (isValidUsername _)); [intros [= <- _]; discriminate|].
    destruct (negb (isValidPassword _)); [intros [= <- _]; discriminate|].
    unfold create_user. destruct (List.existsb _ _); [|reflexivity].
    intros [= <- _]. discriminate. }
  assert (Hpw : RegPassword req <> "").
  { revert Hrun Hok. unfold RegisterHandler, bind_register.
    destruct (String.eqb_spec (RegPassword req) "") as [Hempty|Hne]; [|trivial].
    rewrite andb_false_r. intros [= <- _]. discriminate. }
  apply RegisterHandler_inv in Hrun; [|exact Hok].
  destruct Hrun as (Hname & _ & _ & Husers).
  destruct (run_users rs s1) as [l Hl]. rewrite Husers in Hl.
  unfold LoginHandler, bind_login. cbn [LoginUsername LoginPassword].
  assert (Hname' : name <> "").
  { intros ->. symmetry in Hcase. now apply ToLower_empty in Hcase. }
  apply String.eqb_neq in Hname', Hpw. rewrite Hname', Hpw. cbn [negb andb].
  unfold first_user_by_username. rewrite Hl, Hcase.
  rewrite (find_app_l _ _ l
             (User.mk (users_seq (db s)) (ToLower (RegUsername req))
                (bcrypt (RegPassword req)) "user")).
  - cbn [User.Password User.ID]. rewrite Hcompare. cbn [negb]. now rewrite Hsign.
  - apply find_snoc_new; [exact Hfresh | apply Hrefl].
Qed.

(** Alice registers as "Alice" and, two requests later, logs in as
    "ALICE". *)
Lemma login_after_register_witness :
  @LoginHandler Ledger.strict Tokens.plain "s3cret"
    (mkLoginRequest "ALICE" "correcthorse")
    (snd (@run Ledger.strict
            [Register (mkRegisterRequest "bob" "batterystaple");
             CreateWallet (Some Ledger.alice)]
            (snd (@RegisterHandler Ledger.strict
                    (mkRegisterRequest "Alice" "correcthorse") empty_state))))
  = auth_response StatusOK "s3cret.1"
  /\ @JWTAuthMiddleware Tokens.plain "s3cret" ("Bearer " +:+ "s3cret.1") = inr 1%N.
Proof.
  apply (@login_after_register Ledger.strict Tokens.plain "s3cret"
           (mkRegisterRequest "Alice" "correcthorse") empty_state _
           (JSON StatusCreated (message "User registered successfully"))
           [Register (mkRegisterRequest "bob" "batterystaple");
            CreateWallet (Some Ledger.alice)]
           "ALICE" "s3cret.1").
  - intros a. apply String.eqb_refl.
  - vm_compute. reflexivity.
  - vm_compute. reflexivity.
  - reflexivity.
  - reflexivity.
  - vm_compute. reflexivity.
  - vm_compute. reflexivity.
Defined.

(** ** C10: the casing of a transfer's target *)



Section casing.
Context `{Env}.






End casing.






(** ** The wallet routes behind the middleware *)

Lemma handle_authenticated_not_401 `{Env} (userID : N) (call : WalletCall)
    (s : State) :
  status (fst (handle (dispatch (Some userID) call) s)) <> StatusUnauthorized.
Proof.
  destruct call as [| | now req | now req | p ps]; cbn [dispatch handle].
  - unfold CreateWalletHandler.
    destruct (first_wallet_by_user _ _); [discriminate|].
    destruct (create_wallet _ _) as [[w d]|]; discriminate.
  - unfold GetWalletHandler.
    destruct (GetCache_wallet _ _); [discriminate|].
    destruct (first_wallet_by_user _ _); discriminate.
  - destruct (DepositHandler now (Some userID) req s) as [resp s'] eqn:E.
    revert E. unfold DepositHandler.
    destruct (_ || _); [intros [= <- _]; discriminate|].
    destruct (first_wallet_by_user _ _); intros [= <- _]; discriminate.
  - destruct (TransferHandler now (Some userID) req s) as [resp s'] eqn:E.
    revert E. unfold TransferHandler.
    destruct (_ || _); [intros [= <- _]; discriminate|].
    destruct (first_user_by_username _ _) as [toUser|];
      [|intros [= <- _]; discriminate].
    destruct (N.eqb _ _); [intros [= <- _]; discriminate|].
    destruct (first_wallet_by_user (db s) userID);
      [|intros [= <- _]; discriminate].
    destruct (first_wallet_by_user (db s) (User.ID toUser));
      [|intros [= <- _]; discriminate].
    destruct (_ <? _); intros [= <- _]; discriminate.
  - unfold GetTransactionHistoryHandler.
    destruct (first_wallet_by_user _ _); [|discriminate].
    destruct (GetCache_history _ _); discriminate.
Qed.

(** X19. On the wallet routes a 401 is always the JWT middleware's: the
    answer is then one of its two messages ("Missing or invalid
    Authorization header", "Invalid or expired token"), no handler has run
    and the state is unchanged.  The handlers' own 401 "Unauthorized" is
    never sent. *)
Theorem wallet_route_401_is_the_middleware `{Env} `{Auth} (secret authHeader : string)
    (call : WalletCall) (s : State) :
  fst (wallet_route secret authHeader call s)
  <> JSON StatusUnauthorized (error "Unauthorized")
  /\ (status (fst (wallet_route secret authHeader call s)) = StatusUnauthorized ->
      snd (wallet_route secret authHeader call s) = s
      /\ (body (fst (wallet_route secret authHeader call s))
          = error "Missing or invalid Authorization header"
          \/ body (fst (wallet_route secret authHeader call s))
             = error "Invalid or expired token")).
Proof.
  unfold wallet_route.
  destruct (JWTAuthMiddleware secret authHeader) as [resp|userID] eqn:Emw.
  - revert Emw. unfold JWTAuthMiddleware.
    destruct (_ || _).
    + intros [= <-]. split; [discriminate|]. intros _. split; [reflexivity | now left].
    + destruct (ParseJWT _ _); [discriminate|].
      intros [= <-]. split; [discriminate|]. intros _. split; [reflexivity | now right].
  - pose proof (handle_authenticated_not_401 userID call s) as Hnot. split.
    + intros Heq. apply Hnot. now rewrite Heq.
    + intros H401. contradiction.
Qed.

(** A request without the "Bearer " prefix. *)
Lemma wallet_route_401_is_the_middleware_witness :
  snd (@wallet_route Ledger.strict Tokens.plain "s3cret" "s3cret.1"
         (post_deposit 1000 (mkDepositRequest 100)) (Ledger.opened Ledger.strict))
  = Ledger.opened Ledger.strict
  /\ (body (fst (@wallet_route Ledger.strict Tokens.plain "s3cret" "s3cret.1"
                   (post_deposit 1000 (mkDepositRequest 100))
                   (Ledger.opened Ledger.strict)))
      = error "Missing or invalid Authorization header"
      \/ body (fst (@wallet_route Ledger.strict Tokens.plain "s3cret" "s3cret.1"
                      (post_deposit 1000 (mkDepositRequest 100))
                      (Ledger.opened Ledger.strict)))
         = error "Invalid or expired token").
Proof.
  apply (@wallet_route_401_is_the_middleware Ledger.strict Tokens.plain
           "s3cret" "s3cret.1" (post_deposit 1000 (mkDepositRequest 100))
           (Ledger.opened Ledger.strict)).
  vm_compute. reflexivity.
Defined.

(** ** Concurrent transfers and the sum of the balances *)

(** The wallets a transfer holds between its reads and its transaction are
    rows of the table. *)
Definition holds_rows (ids : list N) (t : Interleaving.Thread) : Prop :=
  match t with
  | Interleaving.at_find_recipient _ _ _ _ fromWallet =>
      In (Wallet.ID fromWallet) ids
  | Interleaving.at_transaction _ _ _ _ fromWallet toWallet =>
      In (Wallet.ID fromWallet) ids /\ In (Wallet.ID toWallet) ids
  | _ => True
  end.

(** A call that has not started yet. *)
Definition not_started (t : Interleaving.Thread) : Prop :=
  match t with
  | Interleaving.at_find_user _ _ _ => True
  | _ => False
  end.

(** The amount a call that has not started asks to move, and the sum of
    these amounts over all the calls. *)
Definition asked_by (t : Interleaving.Thread) : Z :=
  match t with
  | Interleaving.at_find_user _ _ req => Z.abs (Amount req)
  | _ => 0
  end.

Definition asked_by_all (pool : list Interleaving.Thread) : Z :=
  List.fold_right Z.add 0 (List.map asked_by pool).

Section interleaving_facts.
Context `{Env}.

Lemma first_wallet_ID_In d uid w :
  first_wallet_by_user d uid = Some w ->
  In (Wallet.ID w) (List.map Wallet.ID (wallets d)).
Proof. intros Hw. apply first_wallet_In in Hw. now apply List.in_map. Qed.

Lemma total_balance_update_by_id d wid delta :
  primary_key d -> In wid (List.map Wallet.ID (wallets d)) ->
  total_balance (update_balance wid delta d) = total_balance d + delta.
Proof.
  intros Hpk Hin. apply List.in_map_iff in Hin. destruct Hin as [w [<- Hw]].
  now apply total_balance_update_balance.
Qed.

Lemma step_ids t s :
  List.map Wallet.ID (wallets (db (snd (Interleaving.step t s))))
  = List.map Wallet.ID (wallets (db s)).
Proof.
  destruct t as [now u req | now u req toUser | now u req toUser fw
                 | now u req toUser fw tw | u toUser | resp];
    cbn [Interleaving.step].
  - destruct u; [|reflexivity]. destruct (_ || _); [reflexivity|].
    destruct (first_user_by_username _ _); [|reflexivity].
    now destruct (N.eqb _ _).
  - now destruct (first_wallet_by_user _ _).
  - destruct (first_wallet_by_user _ _); [|reflexivity]. now destruct (_ <? _).
  - cbn [snd db]. now rewrite wallets_transfer_tx, !map_ID_bump.
  - reflexivity.
  - reflexivity.
Qed.

Lemma step_holds_rows t s :
  holds_rows (List.map Wallet.ID (wallets (db s))) t ->
  holds_rows (List.map Wallet.ID (wallets (db s))) (fst (Interleaving.step t s)).
Proof.
  destruct t as [now u req | now u req toUser | now u req toUser fw
                 | now u req toUser fw tw | u toUser | resp];
    cbn [Interleaving.step holds_rows]; intros Hrows.
  - destruct u; [|exact I]. destruct (_ || _); [exact I|].
    destruct (first_user_by_username _ _); [|exact I].
    now destruct (N.eqb _ _).
  - destruct (first_wallet_by_user (db s) u) as [fw|] eqn:Ef; [|exact I].
    cbn [fst holds_rows]. now apply (first_wallet_ID_In _ u).
  - destruct (first_wallet_by_user (db s) (User.ID toUser)) as [tw|] eqn:Et;
      [|exact I].
    destruct (_ <? _); [exact I|]. cbn [fst holds_rows].
    split; [exact Hrows | now apply (first_wallet_ID_In _ (User.ID toUser))].
  - exact I.
  - exact I.
  - exact I.
Qed.

Lemma step_primary_key t s :
  primary_key (db s) -> primary_key (db (snd (Interleaving.step t s))).
Proof.
  intros Hpk.
  destruct t as [now u req | now u req toUser | now u req toUser fw
                 | now u req toUser fw tw | u toUser | resp];
    cbn [Interleaving.step].
  - destruct u; [|exact Hpk]. destruct (_ || _); [exact Hpk|].
    destruct (first_user_by_username _ _); [|exact Hpk].
    now destruct (N.eqb _ _).
  - now destruct (first_wallet_by_user _ _).
  - destruct (first_wallet_by_user _ _); [|exact Hpk]. now destruct (_ <? _).
  - cbn [snd db]. now apply transfer_tx_primary_key.
  - exact Hpk.
  - exact Hpk.
Qed.

Lemma step_total_balance t s :
  primary_key (db s) ->
  holds_rows (List.map Wallet.ID (wallets (db s))) t ->
  total_balance (db (snd (Interleaving.step t s))) = total_balance (db s).
Proof.
  intros Hpk Hrows.
  destruct t as [now u req | now u req toUser | now u req toUser fw
                 | now u req toUser fw tw | u toUser | resp];
    cbn [Interleaving.step].
  - destruct u; [|reflexivity]. destruct (_ || _); [reflexivity|].
    destruct (first_user_by_username _ _); [|reflexivity].
    now destruct (N.eqb _ _).
  - now destruct (first_wallet_by_user _ _).
  - destruct (first_wallet_by_user _ _); [|reflexivity]. now destruct (_ <? _).
  - cbn [snd db holds_rows] in *. destruct Hrows as [Hf Ht].
    change (total_balance
              (update_balance (Wallet.ID tw) (Amount req)
                 (update_balance (Wallet.ID fw) (- Amount req) (db s)))
            = total_balance (db s)).
    rewrite total_balance_update_by_id.
    + rewrite total_balance_update_by_id by assumption. lia.
    + now apply primary_key_update_balance.
    + now rewrite wallets_update_balance, map_ID_bump.
  - reflexivity.
  - reflexivity.
Qed.

Lemma interleave_total_balance schedule pool s :
  primary_key (db s) ->
  List.Forall (holds_rows (List.map Wallet.ID (wallets (db s)))) pool ->
  total_balance (db (snd (Interleaving.interleave schedule pool s)))
  = total_balance (db s).
Proof.
  revert pool s. induction schedule as [|i schedule IH]; intros pool s Hpk Hpool.
  - reflexivity.
  - cbn [Interleaving.interleave].
    destruct (pool !! i) as [t|] eqn:Ei; [|now apply IH].
    assert (Ht : holds_rows (List.map Wallet.ID (wallets (db s))) t).
    { rewrite List.Forall_forall in Hpool. apply Hpool.
      apply list_elem_of_In. now apply (list_elem_of_lookup_2 _ i). }
    pose proof (step_ids t s) as Hids.
    pose proof (step_holds_rows t s Ht) as Ht'.
    pose proof (step_total_balance t s Hpk Ht) as Htotal.
    pose proof (step_primary_key t s Hpk) as Hpk'.
    destruct (Interleaving.step t s) as [t' s']. cbn [fst snd] in *.
    rewrite IH; [exact Htotal | exact Hpk' |].
    rewrite Hids. apply Forall_insert; assumption.
Qed.
End interleaving_facts.

(** X20. Where no balance can move more than 2^53 away from zero (its
    magnitude and the amounts of all the calls add up to at most 2^53):
    however the store accesses of any number of concurrent transfers
    interleave, the sum of all balances is what it was before.  The race
    of C1 overdraws one wallet by exactly what it gives to another, it
    neither makes nor loses money. *)
Theorem interleaved_transfers_conserve_total `{Env} (schedule : list nat)
    (pool : list Interleaving.Thread) (s : State) :
  primary_key (db s) ->
  List.Forall not_started pool ->
  List.Forall
    (fun w => Z.abs (Wallet.Balance w) + asked_by_all pool <= float64_exact)
    (wallets (db s)) ->
  total_balance (db (snd (Interleaving.interleave schedule pool s)))
  = total_balance (db s).
Proof.
  intros Hpk Hpool _. apply interleave_total_balance; [exact Hpk|].
  eapply List.Forall_impl; [|exact Hpool].
  intros t Ht. destruct t; simpl in *; tauto.
Qed.

(** The overdrawing schedule of C1: 100 before, -20 and 120 after. *)
Lemma interleaved_transfers_conserve_total_witness :
  total_balance
    (db (snd (@Interleaving.interleave Ledger.strict Interleaving.reads_first
                Interleaving.two_transfers (Ledger.funded Ledger.strict))))
  = total_balance (db (Ledger.funded Ledger.strict)).
Proof.
  apply (@interleaved_transfers_conserve_total Ledger.strict).
  - split.
    + vm_compute. repeat constructor; simpl; intuition discriminate.
    + vm_compute. repeat constructor.
  - repeat constructor.
  - repeat constructor; vm_compute; discriminate.
Defined.

(** ** The balance cache in sequential executions *)

(** Every cached balance is the wallet row of its user as the store has
    it now. *)
Definition wallet_cache_current (s : State) : Prop :=
  forall u v,
    uint u -> rdb s !! wallet_key u = Some v ->
    exists w, v = cv_wallet w /\ first_wallet_by_user (db s) u = Some w.

(** The user identifier the JWT middleware put into the context. *)
Definition caller (r : Request) : option N :=
  match r with
  | Register _ => None
  | CreateWallet u | Deposit _ u _ | Transfer _ u _ | GetWallet u
  | GetTransactionHistory u _ _ => u
  end.

Definition caller_uint (r : Request) : Prop :=
  match caller r with
  | Some u => uint u
  | None => True
  end.

Section wallet_cache_facts.
Context `{Env}.

Lemma fold_left_delete_Some
    (g : Z -> gmap string CacheVal -> gmap string CacheVal) (k : string)
    (l : list Z) (c : gmap string CacheVal) (v : CacheVal) :
  (forall j c', g j c' !! k = Some v -> c' !! k = Some v) ->
  List.fold_left (fun c' j => g j c') l c !! k = Some v -> c !! k = Some v.
Proof.
  intros Hg. revert c. induction l as [|j l IH]; simpl; intros c Hc.
  - exact Hc.
  - apply (Hg j). now apply IH.
Qed.

Lemma DeleteCache_Some k k' (c : gmap string CacheVal) v :
  DeleteCache k' c !! k = Some v -> c !! k = Some v /\ k' <> k.
Proof.
  unfold DeleteCache. rewrite lookup_delete.
  destruct (decide (k' = k)); [discriminate | now split].
Qed.

Lemma deposit_invalidate_Some uid c k v :
  deposit_invalidate uid c !! k = Some v ->
  c !! k = Some v /\ wallet_key uid <> k.
Proof.
  unfold deposit_invalidate. intros Hc.
  apply (fold_left_delete_Some
           (fun i c' => DeleteCache (default_size_key (txhistory_prefix uid) i) c'))
    in Hc.
  - now apply DeleteCache_Some in Hc.
  - intros j c' Hj. now apply DeleteCache_Some in Hj.
Qed.

Lemma transfer_invalidate_Some fromUserID toUserID c k v :
  transfer_invalidate fromUserID toUserID c !! k = Some v ->
  c !! k = Some v /\ wallet_key fromUserID <> k /\ wallet_key toUserID <> k.
Proof.
  unfold transfer_invalidate. intros Hc.
  apply (fold_left_delete_Some
           (fun i c' =>
              DeleteCache (default_size_key (txhistory_prefix toUserID) i)
                (DeleteCache (default_size_key (txhistory_prefix fromUserID) i) c')))
    in Hc.
  - apply DeleteCache_Some in Hc. destruct Hc as [Hc Hto].
    apply DeleteCache_Some in Hc. tauto.
  - intros j c' Hj. apply DeleteCache_Some in Hj. destruct Hj as [Hj _].
    now apply DeleteCache_Some in Hj.
Qed.

Lemma wallet_key_not_txhistory u v page pageSize :
  txhistory_key v page pageSize <> wallet_key u.
Proof.
  unfold txhistory_key, txhistory_prefix, wallet_key. intros Heq.
  discriminate Heq.
Qed.

Lemma distinct_users_distinct_rows d u v wu wv :
  primary_key d ->
  first_wallet_by_user d u = Some wu -> first_wallet_by_user d v = Some wv ->
  u <> v -> Wallet.ID wu <> Wallet.ID wv.
Proof.
  intros [Hnd _] Hu Hv Hne Hid. apply first_wallet_In in Hu, Hv.
  destruct Hu as [Hinu Huu], Hv as [Hinv Hvv].
  apply Hne. rewrite <- Huu, <- Hvv. f_equal.
  now apply (unique_ID (wallets d)).
Qed.

Lemma handle_wallet_cache_current r s :
  primary_key (db s) -> caller_uint r ->
  wallet_cache_current s -> wallet_cache_current (snd (handle r s)).
Proof.
  intros Hpk Hcaller Hcur.
  destruct r as [req | u0 | now u0 req | now u0 req | u0 | u0 p ps];
    cbn [handle].
  - unfold RegisterHandler.
    destruct (negb (bind_register req)); [exact Hcur|].
    destruct (negb (isValidUsername _)); [exact Hcur|].
    destruct (negb (isValidPassword _)); [exact Hcur|].
    unfold create_user. destruct (List.existsb _ _); exact Hcur.
  - unfold CreateWalletHandler. destruct u0 as [userID|]; [|exact Hcur].
    destruct (first_wallet_by_user _ _); [exact Hcur|].
    unfold create_wallet. destruct (_ || _); [exact Hcur|].
    intros u v Hu Hv. cbn [snd rdb db] in *.
    apply DeleteCache_Some in Hv. destruct Hv as [Hv _].
    destruct (Hcur u v Hu Hv) as (w & -> & Hw). exists w. split; [reflexivity|].
    unfold first_wallet_by_user in *. cbn [wallets]. now apply find_app_l.
  - destruct (DepositHandler now u0 req s) as [resp s'] eqn:E.
    apply DepositHandler_inv in E.
    destruct E as [[-> _] | (userID & wa & _ & _ & Hwa & _ & ->)]; [exact Hcur|].
    intros u v Hu Hv. cbn [snd] in *. unfold deposit_result in *. cbn [rdb db] in *.
    apply deposit_invalidate_Some in Hv. destruct Hv as [Hv Hkey].
    destruct (Hcur u v Hu Hv) as (w & -> & Hw). exists w. split; [reflexivity|].
    unfold deposit_tx.
    rewrite first_wallet_create_transaction, first_wallet_update_balance, Hw.
    cbn [option_map]. rewrite bump_other; [reflexivity|].
    apply (distinct_users_distinct_rows (db s) u userID); try assumption.
    intros ->. now apply Hkey.
  - destruct (TransferHandler now u0 req s) as [resp s'] eqn:E.
    apply TransferHandler_inv in E.
    destruct E as [[-> _] | (A & toUser & fw & tw & _ & Hs & _ & ->)]; [exact Hcur|].
    destruct Hs as [_ _ _ Hf Ht _].
    intros u v Hu Hv. cbn [snd] in *. unfold transfer_result in *. cbn [rdb db] in *.
    apply transfer_invalidate_Some in Hv. destruct Hv as (Hv & Hfrom & Hto).
    destruct (Hcur u v Hu Hv) as (w & -> & Hw). exists w. split; [reflexivity|].
    unfold transfer_tx.
    rewrite first_wallet_create_transaction, !first_wallet_update_balance, Hw.
    cbn [option_map]. rewrite (bump_other (Wallet.ID fw)).
    + rewrite bump_other; [reflexivity|].
      apply (distinct_users_distinct_rows (db s) u (User.ID toUser)); try assumption.
      intros ->. now apply Hto.
    + apply (distinct_users_distinct_rows (db s) u A); try assumption.
      intros ->. now apply Hfrom.
  - unfold GetWalletHandler. destruct u0 as [userID|]; [|exact Hcur].
    destruct (GetCache_wallet _ _); [exact Hcur|].
    destruct (first_wallet_by_user (db s) userID) as [wa|] eqn:Hwa; [|exact Hcur].
    intros u v Hu Hv. cbn [snd rdb db] in *. unfold SetCache in Hv.
    rewrite lookup_insert in Hv.
    destruct (decide (wallet_key userID = wallet_key u)) as [Heq|Hne].
    + injection Hv as <-. apply wallet_key_inj in Heq; [|exact Hcaller | exact Hu].
      subst u. now exists wa.
    + now apply Hcur.
  - unfold GetTransactionHistoryHandler. destruct u0 as [userID|]; [|exact Hcur].
    destruct (first_wallet_by_user _ _); [|exact Hcur].
    destruct (GetCache_history _ _); [exact Hcur|].
    intros u v Hu Hv. cbn [snd rdb db] in *. unfold SetCache in Hv.
    rewrite lookup_insert_ne in Hv by apply wallet_key_not_txhistory.
    now apply Hcur.
Qed.

Lemma run_wallet_cache_current rs s :
  primary_key (db s) -> List.Forall caller_uint rs ->
  wallet_cache_current s -> wallet_cache_current (snd (run rs s)).
Proof.
  revert s. induction rs as [|r rs IH]; intros s Hpk Hrs Hcur; [exact Hcur|].
  inversion Hrs as [|? ? Hr Hrs']; subst.
  rewrite run_cons. cbn [snd]. apply IH.
  - now apply handle_primary_key.
  - exact Hrs'.
  - now apply handle_wallet_cache_current.
Qed.
End wallet_cache_facts.

(** X21. In sequential executions a balance read is never stale.  From a
    state whose cached balances are current (an empty cache, say), after
    any sequence of requests, a balance read answers with the wallet row
    as the store has it, whether it is served from the cache or from the
    store. *)
Theorem balance_reads_are_current `{Env} (rs : list Request) (s : State) (u : N)
    (w : Wallet.t) (cached : bool) :
  primary_key (db s) ->
  wallet_cache_current s ->
  List.Forall caller_uint rs ->
  uint u ->
  fst (GetWalletHandler (Some u) (snd (run rs s)))
  = JSON StatusOK (wallet_info w cached) ->
  first_wallet_by_user (db (snd (run rs s))) u = Some w.
Proof.
  intros Hpk Hcur Hrs Hu Hread.
  pose proof (run_wallet_cache_current rs s Hpk Hrs Hcur) as Hcur'.
  revert Hread. unfold GetWalletHandler, GetCache_wallet.
  destruct (rdb (snd (run rs s)) !! wallet_key u) as [v|] eqn:Ev.
  - destruct (Hcur' u v Hu Ev) as (w0 & -> & Hw0). cbn [fst]. now intros [= <- _].
  - destruct (first_wallet_by_user _ u) as [w0|]; cbn [fst]; [|discriminate].
    now intros [= <- _].
Qed.

(** Alice reads 100, pays Bob 40, Bob reads, Alice deposits 5; her next
    read shows 65. *)
Lemma balance_reads_are_current_witness :
  first_wallet_by_user
    (db (snd (@run Ledger.strict
                [GetWallet (Some Ledger.alice);
                 Transfer 2000 (Some Ledger.alice) (mkTransferRequest "bob" 40);
                 GetWallet (Some Ledger.bob);
                 Deposit 2001 (Some Ledger.alice) (mkDepositRequest 5)]
                (Ledger.funded Ledger.strict))))
    Ledger.alice
  = Some (Wallet.mk 1 1 65).
Proof.
  apply (@balance_reads_are_current Ledger.strict
           [GetWallet (Some Ledger.alice);
            Transfer 2000 (Some Ledger.alice) (mkTransferRequest "bob" 40);
            GetWallet (Some Ledger.bob);
            Deposit 2001 (Some Ledger.alice) (mkDepositRequest 5)]
           (Ledger.funded Ledger.strict) Ledger.alice (Wallet.mk 1 1 65) false).
  - split.
    + vm_compute. repeat constructor; simpl; intuition discriminate.
    + vm_compute. repeat constructor.
  - intros u v _ Hv. vm_compute in Hv. discriminate Hv.
  - repeat constructor.
  - reflexivity.
  - vm_compute. reflexivity.
Defined.
